(** * LogSentinel NestJS SDK: batching, flushing and delivery lifecycle

    A shallow embedding of the batching core of the SDK
    ([config/constants.ts], the [BatchQueue] and [BatchFlusher] classes,
    [transport/http-client.ts], [core/logsentinel.sdk.ts],
    [core/environment.ts] and the internal logger) together with the
    properties its specification states about it.

    Conventions.  JavaScript numbers that the code uses as counters, status
    codes and millisecond durations are integers of [Z].  Objects are
    records; an object shared by several owners (the one [BatchQueue] that
    the SDK, the interceptor and the flusher all point to) is a single field
    of the enclosing state.  An [async] function is a function over a
    virtual-time [World]; a rejected promise is the [Threw] outcome. *)

From Stdlib Require Import ZArith List String Bool Lia.
Import ListNotations.
Open Scope string_scope.
Open Scope list_scope.
Open Scope Z_scope.

(* ================================================================== *)
(** * config/constants.ts *)

Definition BATCH_SIZE : Z := 5.
Definition FLUSH_INTERVAL_MS : Z := 5000.
Definition HTTP_TIMEOUT_MS : Z := 10000.
Definition MAX_RETRIES : Z := 3.
Definition RETRY_DELAY_MS : Z := 1000.
Definition MAX_LOG_FIELD_SIZE_BYTES : Z := 10240.
Definition SHUTDOWN_GRACE_PERIOD_MS : Z := 5000.

(* ================================================================== *)
(** * Values of type [any] and [JSON.stringify]

    The fields of a log entry typed [any] hold arbitrary JavaScript values.
    What matters to the transport is whether [JSON.stringify] returns or
    throws on them: it throws a [TypeError] on a [BigInt] and on a structure
    that contains a reference cycle, and returns on everything else. *)

#[warnings="-register-all"]
Inductive JsValue : Type :=
| JsNull
| JsBool (b : bool)
| JsNumber (n : Z)
| JsString (s : string)
| JsArray (items : list JsValue)
| JsObject (fields : list (string * JsValue))
| JsBigInt (n : Z)
| JsCyclic.

Fixpoint stringifies (v : JsValue) : bool :=
  match v with
  | JsBigInt _ | JsCyclic => false
  | JsArray items => forallb stringifies items
  | JsObject fields => forallb (fun kv : string * JsValue => let (_, x) := kv in stringifies x) fields
  | JsNull | JsBool _ | JsNumber _ | JsString _ => true
  end.

Definition stringifies_opt (o : option JsValue) : bool :=
  match o with
  | Some v => stringifies v
  | None => true
  end.

(* ================================================================== *)
(** * config/options.interface.ts: the data model *)

(** [executionTimeMs] is kept in hundredths of a millisecond, the precision
    the interceptor rounds it to. *)
Record LogEntry : Type := mkLogEntry {
  timestamp : string;
  method : string;
  url : string;
  query : option JsValue;
  requestHeaders : option JsValue;
  requestBody : option JsValue;
  statusCode : option Z;
  responseBody : option JsValue;
  executionTimeMs : option Z;
  error : option string
}.

Record EnvConfig : Type := mkEnvConfig {
  apiKey : string;
  baseUrl : string;
  debug : bool;
  batchSize : Z
}.

Record LogSentinelOptions : Type := mkOptions {
  opt_debug : option bool;
  opt_batchSize : option Z
}.

(** [JSON.stringify(logEntry)] returns exactly when every [any]-typed field
    of the entry stringifies; the string and number fields always do. *)
Definition entry_stringifies (e : LogEntry) : bool :=
  stringifies_opt (query e) && stringifies_opt (requestHeaders e)
  && stringifies_opt (requestBody e) && stringifies_opt (responseBody e).

(* ================================================================== *)
(** * class BatchQueue *)

Module BatchQueue.

Record t : Type := mk {
  queue : list LogEntry;
  isShuttingDown : bool
}.

(** [new BatchQueue()] *)
Definition new : t := {| queue := []; isShuttingDown := false |}.

(** [add(entry)]: the updated object and the returned boolean. *)
Definition add (entry : LogEntry) (q : t) : t * bool :=
  if isShuttingDown q then (q, false)
  else ({| queue := queue q ++ [entry]; isShuttingDown := isShuttingDown q |}, true).

(** [getAndClear()]: the updated object and the copied entries. *)
Definition getAndClear (q : t) : t * list LogEntry :=
  let entries := queue q in
  ({| queue := []; isShuttingDown := isShuttingDown q |}, entries).

Definition size (q : t) : Z := Z.of_nat (List.length (queue q)).

Definition isEmpty (q : t) : bool := size q =? 0.

Definition beginShutdown (q : t) : t :=
  {| queue := queue q; isShuttingDown := true |}.

Definition isInShutdown (q : t) : bool := isShuttingDown q.

(** A sequence of [add] calls, oldest first. *)
Definition add_all (entries : list LogEntry) (q : t) : t :=
  fold_left (fun acc e => fst (add e acc)) entries q.

(** The calls a holder of the queue can make on it. *)
Inductive call : Type :=
| Add (entry : LogEntry)
| GetAndClear
| Size
| IsEmpty
| BeginShutdown
| IsInShutdown.

Definition perform (c : call) (q : t) : t :=
  match c with
  | Add e => fst (add e q)
  | GetAndClear => fst (getAndClear q)
  | BeginShutdown => beginShutdown q
  | Size | IsEmpty | IsInShutdown => q
  end.

Definition perform_all (cs : list call) (q : t) : t :=
  fold_left (fun acc c => perform c acc) cs q.

End BatchQueue.

(* ================================================================== *)
(** * Console output and class InternalLogger *)

Inductive Level : Type := LInfo | LWarn | LError | LDebug | LSuccess.

(** The texts the code prints, with the values interpolated into them. *)
Inductive Message : Type :=
| MsgLogSent (attemptNo : Z)
    (* `Log sent successfully (attempt ${attempt + 1})` *)
| MsgRejected (status : Z)
    (* `Server rejected log with status ${response.status}, not retrying` *)
| MsgServerError (status attemptNo total : Z)
    (* `Server error ${response.status}, attempt ${attempt + 1}/${MAX_RETRIES + 1}` *)
| MsgTimeout (attemptNo : Z)
    (* `Request timeout (attempt ${attempt + 1})` *)
| MsgNetworkError (reason : string) (attemptNo total : Z)
    (* `Network error: ${...}`, `(attempt ${attempt + 1}/${MAX_RETRIES + 1})` *)
| MsgGaveUp
    (* 'Failed to send log after all retry attempts' *)
| MsgFlusherStarted (intervalMs : Z)
    (* `Batch flusher started (interval: ${intervalMs}ms)` *)
| MsgFlusherStopped
    (* 'Batch flusher stopped' *)
| MsgFlushing (count : Z)
    (* `Flushing ${entries.length} log entries` *)
| MsgSentAll (count : Z)
    (* `Successfully sent ${successCount} logs` *)
| MsgSentSome (sent total failed : Z)
    (* `Sent ${successCount}/${entries.length} logs (${...} failed)` *)
| MsgFlushFault (reason : string)
    (* `Unexpected error during flush: ${...}` *)
| MsgCaptured (entry : LogEntry)
    (* `Captured ${logEntry.method} ${logEntry.url} - ${logEntry.statusCode} (...ms)` *)
| MsgInitializing
    (* 'Initializing LogSentinel SDK...' *)
| MsgInitialized
    (* 'LogSentinel SDK initialized successfully' *)
| MsgSettings (size : Z) (dbg : bool)
    (* `Batch size: ${config.batchSize}, Debug mode: ${config.debug}` *)
| MsgInitFault (reason : string)
    (* `Failed to initialize SDK: ${...}` *)
| MsgSignal (signal : string)
    (* `Received ${signal}, shutting down gracefully...` *)
| MsgUnsent (remaining : Z)
    (* `Shutdown complete. ${remaining} logs could not be sent.` *)
| MsgAllFlushed
    (* 'Shutdown complete. All logs flushed successfully.' *)
| MsgShutdownFault (reason : string)
    (* `Error during shutdown: ${...}` *).

Inductive Output : Type :=
| Line (lvl : Level) (msg : Message)
    (* a line printed by the internal logger *)
| DebugSendingLog (entry : LogEntry)
    (* console.log(..., '[LogSentinel DEBUG] Sending log:', JSON.stringify(logEntry, null, 2)) *)
| DebugSendingBatch (entries : list LogEntry)
    (* console.log(..., '[LogSentinel DEBUG] Sending batch:', JSON.stringify(logEntries, null, 2)) *)
| WarnDisabledNoConfig
    (* console.warn('[LogSentinel] SDK disabled: Missing or invalid configuration. ...') *)
| WarnDisabledInitError
    (* console.warn('[LogSentinel] SDK disabled due to initialization error') *).

Module InternalLogger.

Record t : Type := mk { debugEnabled : bool }.

(** Every method prints only [if (this.debugEnabled)]. *)
Definition print (self : t) (lvl : Level) (msg : Message) : list Output :=
  if debugEnabled self then [Line lvl msg] else [].

Definition info (self : t) := print self LInfo.
Definition warn (self : t) := print self LWarn.
Definition error (self : t) := print self LError.
Definition debug (self : t) := print self LDebug.
Definition success (self : t) := print self LSuccess.

End InternalLogger.

(* ================================================================== *)
(** * Exceptions, outcomes and the asynchronous world *)

(** A thrown value: an [Error] object with its [name] and [message], or
    anything else. *)
Inductive Exn : Type :=
| JsError (name message : string)
| NonError.

Definition AbortError : Exn := JsError "AbortError" "This operation was aborted".
Definition StringifyError : Exn := JsError "TypeError" "Value cannot be serialized to JSON".

(** [error instanceof Error && error.name === 'AbortError'] *)
Definition isAbortError (e : Exn) : bool :=
  match e with
  | JsError name _ => String.eqb name "AbortError"
  | NonError => false
  end.

(** [error instanceof Error ? error.message : 'Unknown'] *)
Definition messageOf (e : Exn) : string :=
  match e with
  | JsError _ message => message
  | NonError => "Unknown"
  end.

(** How a call (or the promise of an [async] call) ends.  [OutOfFuel] is the
    embedding's own: a loop that was not given enough iterations. *)
Inductive Outcome (A : Type) : Type :=
| Returned (a : A)
| Threw (e : Exn)
| OutOfFuel.

Arguments Returned {A} a.
Arguments Threw {A} e.
Arguments OutOfFuel {A}.

(** What the transport does that can be observed from outside. *)
Inductive Event : Type :=
| Console (o : Output)
| Fetch (endpoint authorization : string) (body : LogEntry)
| Delay (ms : Z).

(** Virtual time in milliseconds, the number of [fetch] calls issued so far
    and everything observed so far, oldest first. *)
Record World : Type := mkWorld {
  clock : Z;
  fetches : nat;
  trace : list Event
}.

Definition Async (A : Type) : Type := World -> Outcome A * World.

Definition ret {A} (a : A) : Async A := fun w => (Returned a, w).

Definition throw {A} (e : Exn) : Async A := fun w => (Threw e, w).

Definition bind {A B} (m : Async A) (k : A -> Async B) : Async B :=
  fun w =>
    match m w with
    | (Returned a, w') => k a w'
    | (Threw e, w') => (Threw e, w')
    | (OutOfFuel, w') => (OutOfFuel, w')
    end.

(** [try { m } catch (error) { handler error }] *)
Definition try_catch {A} (m : Async A) (handler : Exn -> Async A) : Async A :=
  fun w =>
    match m w with
    | (Threw e, w') => handler e w'
    | other => other
    end.

Declare Scope async_scope.
Delimit Scope async_scope with async.
Notation "x <- m ;; k" := (bind m (fun x => k))
  (at level 61, m at next level, right associativity) : async_scope.
Notation "m ;;; k" := (bind m (fun _ => k))
  (at level 61, right associativity) : async_scope.

Definition observe (evs : list Event) : Async unit :=
  fun w => (Returned tt,
            {| clock := clock w; fetches := fetches w; trace := trace w ++ evs |}).

Definition say (lines : list Output) : Async unit := observe (map Console lines).

Definition elapse (ms : Z) (w : World) : World :=
  {| clock := clock w + ms; fetches := fetches w; trace := trace w |}.

(** [JSON.stringify(logEntry)] as an effect: returns or throws. *)
Definition JSON_stringify (e : LogEntry) : Async unit :=
  if entry_stringifies e then ret tt else throw StringifyError.

Definition JSON_stringify_all (es : list LogEntry) : Async unit :=
  if forallb entry_stringifies es then ret tt else throw StringifyError.

(* ================================================================== *)
(** * transport/http-client.ts *)

(** The remote end.  A [fetch] either resolves with a response status or
    rejects, after some latency; [None] is a server that never answers. *)
Inductive Settle : Type :=
| Responds (status : Z)
| Rejects (e : Exn).

Record Reply : Type := mkReply {
  latency : option Z;
  settle : Settle
}.

(** What the [await fetch(...)] of an attempt sees, and when: the reply if
    it comes before the abort timer of [HTTP_TIMEOUT_MS] fires, else the
    [AbortError] of the aborted request. *)
Definition in_time (r : Reply) : bool :=
  match latency r with
  | Some t => t <? HTTP_TIMEOUT_MS
  | None => false
  end.

Definition answer (r : Reply) : Settle :=
  if in_time r then settle r else Rejects AbortError.

Definition duration (r : Reply) : Z :=
  match latency r with
  | Some t => if t <? HTTP_TIMEOUT_MS then t else HTTP_TIMEOUT_MS
  | None => HTTP_TIMEOUT_MS
  end.

(** Control flow out of one iteration of the retry loop. *)
Inductive Flow : Type :=
| Return (b : bool)
| Continue.

Module HttpClient.

Record t : Type := mk {
  config : EnvConfig;
  logger : InternalLogger.t;
  debug : bool
}.

Section Remote.

(** [net n body]: how the [n]-th [fetch] of the run, counted from 0,
    ends when it carries [body]. *)
Variable net : nat -> LogEntry -> Reply.

(** [fetch(endpoint, {..., signal})] under the abort timer of
    [HTTP_TIMEOUT_MS]: an answer that comes before the timer is the
    fetch's own; otherwise the timer aborts the request and the
    [await] throws an [AbortError]. *)
Definition fetch (endpoint authorization : string) (body : LogEntry) : Async Z :=
  fun w =>
    let reply := net (fetches w) body in
    let w1 := {| clock := clock w; fetches := S (fetches w);
                 trace := trace w ++ [Fetch endpoint authorization body] |} in
    match answer reply with
    | Responds status => (Returned status, elapse (duration reply) w1)
    | Rejects e => (Threw e, elapse (duration reply) w1)
    end.

(** [this.delay(ms)] *)
Definition delay (ms : Z) : Async unit :=
  fun w => (Returned tt,
            elapse ms {| clock := clock w; fetches := fetches w;
                         trace := trace w ++ [Delay ms] |}).

(** [response.ok] *)
Definition ok (status : Z) : bool := (200 <=? status) && (status <=? 299).

(** The [try]/[catch] of one iteration of the loop of [sendLog]. *)
Definition attempt_once (self : t) (endpoint : string) (logEntry : LogEntry)
    (attempt : Z) : Async Flow :=
  try_catch
    (JSON_stringify logEntry ;;;
     status <- fetch endpoint (String.append "Bearer " (apiKey (config self))) logEntry ;;
     if ok status then
       say (InternalLogger.debug (logger self) (MsgLogSent (attempt + 1))) ;;;
       ret (Return true)
     else if (status >=? 400) && (status <? 500) then
       say (InternalLogger.warn (logger self) (MsgRejected status)) ;;;
       ret (Return false)
     else
       say (InternalLogger.warn (logger self)
              (MsgServerError status (attempt + 1) (MAX_RETRIES + 1))) ;;;
       ret Continue)%async
    (fun error =>
       let isLastAttempt := attempt =? MAX_RETRIES in
       (if isAbortError error then
          say (InternalLogger.warn (logger self) (MsgTimeout (attempt + 1)))
        else
          say (InternalLogger.warn (logger self)
                 (MsgNetworkError (messageOf error) (attempt + 1) (MAX_RETRIES + 1)))) ;;;
       if isLastAttempt then
         say (InternalLogger.error (logger self) MsgGaveUp) ;;;
         ret (Return false)
       else ret Continue)%async.

(** [for (let attempt = ...; attempt <= MAX_RETRIES; attempt++) {...}]
    followed by the final [return false]. *)
Fixpoint retry_loop (fuel : nat) (self : t) (endpoint : string)
    (logEntry : LogEntry) (attempt : Z) : Async bool :=
  if attempt <=? MAX_RETRIES then
    match fuel with
    | O => fun w => (OutOfFuel, w)
    | S fuel' =>
        (flow <- attempt_once self endpoint logEntry attempt ;;
         match flow with
         | Return b => ret b
         | Continue =>
             (if attempt <? MAX_RETRIES
              then delay (RETRY_DELAY_MS * (attempt + 1))
              else ret tt) ;;;
             retry_loop fuel' self endpoint logEntry (attempt + 1)
         end)%async
    end
  else ret false.

Definition sendLog (self : t) (logEntry : LogEntry) : Async bool :=
  let endpoint := String.append (baseUrl (config self)) "/api/sdk/logs" in
  ((if debug self then
      JSON_stringify logEntry ;;; say [DebugSendingLog logEntry]
    else ret tt) ;;;
   retry_loop (Z.to_nat (MAX_RETRIES + 1)) self endpoint logEntry 0)%async.

(** [for (const entry of logEntries) {...}] with [successCount]. *)
Fixpoint sendBatch_loop (self : t) (logEntries : list LogEntry)
    (successCount : Z) : Async Z :=
  match logEntries with
  | [] => ret successCount
  | entry :: rest =>
      (success <- sendLog self entry ;;
       sendBatch_loop self rest
         (if success then successCount + 1 else successCount))%async
  end.

Definition sendBatch (self : t) (logEntries : list LogEntry) : Async Z :=
  ((if debug self && (0 <? Z.of_nat (List.length logEntries)) then
      JSON_stringify_all logEntries ;;; say [DebugSendingBatch logEntries]
    else ret tt) ;;;
   sendBatch_loop self logEntries 0)%async.

End Remote.

End HttpClient.

(** A promise that has settled. *)
Inductive Settled (A : Type) : Type :=
| Fulfilled (a : A)
| Rejected (e : Exn).

Arguments Fulfilled {A} a.
Arguments Rejected {A} e.

(* ================================================================== *)
(** * class BatchFlusher

    The code between two [await]s runs without interruption, so [flush] is
    given in its two pieces: the piece that runs when [flush] is called, up
    to [await this.httpClient.sendBatch(entries)], and the piece that runs
    when that promise has settled.  Between the two, any other callback may
    run. *)

Module BatchFlusher.

Record t : Type := mk {
  httpClient : HttpClient.t;
  logger : InternalLogger.t;
  batchSize : Z;
  intervalHandle : option Z;   (* the interval of the active timer *)
  isRunning : bool;
  flushInProgress : bool
}.

(** [new BatchFlusher(queue, httpClient, logger, batchSize)] *)
Definition new (client : HttpClient.t) (lg : InternalLogger.t) (size : Z) : t :=
  {| httpClient := client; logger := lg; batchSize := size;
     intervalHandle := None; isRunning := false; flushInProgress := false |}.

(** The flusher together with what it points to and acts on: the shared
    queue, the calls of [sendBatch] it has made (all of them, and those
    whose promise is still pending), and the console. *)
Record heap : Type := mkHeap {
  self : t;
  queue : BatchQueue.t;
  sendBatchCalls : list (list LogEntry);
  inFlight : list (list LogEntry);
  console : list Output
}.

Definition with_self (f : t -> t) (h : heap) : heap :=
  {| self := f (self h); queue := queue h; sendBatchCalls := sendBatchCalls h;
     inFlight := inFlight h; console := console h |}.

Definition with_queue (q : BatchQueue.t) (h : heap) : heap :=
  {| self := self h; queue := q; sendBatchCalls := sendBatchCalls h;
     inFlight := inFlight h; console := console h |}.

Definition print (lines : list Output) (h : heap) : heap :=
  {| self := self h; queue := queue h; sendBatchCalls := sendBatchCalls h;
     inFlight := inFlight h; console := console h ++ lines |}.

Definition set_flushInProgress (b : bool) (s : t) : t :=
  {| httpClient := httpClient s; logger := logger s; batchSize := batchSize s;
     intervalHandle := intervalHandle s; isRunning := isRunning s;
     flushInProgress := b |}.

Definition set_timer (handle : option Z) (running : bool) (s : t) : t :=
  {| httpClient := httpClient s; logger := logger s; batchSize := batchSize s;
     intervalHandle := handle; isRunning := running;
     flushInProgress := flushInProgress s |}.

(** The call [this.httpClient.sendBatch(entries)] goes out. *)
Definition call_sendBatch (entries : list LogEntry) (h : heap) : heap :=
  {| self := self h; queue := queue h;
     sendBatchCalls := sendBatchCalls h ++ [entries];
     inFlight := inFlight h ++ [entries]; console := console h |}.

Definition start (h : heap) : heap :=
  if isRunning (self h) then h
  else
    (* FLUSH_INTERVAL_MS ?? 1000, and the constant is defined *)
    let intervalMs := FLUSH_INTERVAL_MS in
    print (InternalLogger.info (logger (self h)) (MsgFlusherStarted intervalMs))
          (with_self (set_timer (Some intervalMs) true) h).

Definition stop (h : heap) : heap :=
  print (InternalLogger.info (logger (self h)) MsgFlusherStopped)
        (with_self (set_timer None false) h).

(** [flush()], from the call to its first [await] or to its return.  The
    second component is the batch whose [sendBatch] is being awaited, if
    the call did not return. *)
Definition flush (h : heap) : heap * option (list LogEntry) :=
  if flushInProgress (self h) then (h, None)
  else
    let h1 := with_self (set_flushInProgress true) h in
    let (q', entries) := BatchQueue.getAndClear (queue h1) in
    let h2 := with_queue q' h1 in
    if Z.of_nat (List.length entries) =? 0 then
      (* return, through finally *)
      (with_self (set_flushInProgress false) h2, None)
    else
      let h3 := print (InternalLogger.debug (logger (self h2))
                         (MsgFlushing (Z.of_nat (List.length entries)))) h2 in
      (call_sendBatch entries h3, Some entries).

(** [flush()], from the settling of [sendBatch(entries)] to the end:
    the rest of [try], or [catch], and then [finally]. *)
Definition flush_resume (entries : list LogEntry) (result : Settled Z)
    (h : heap) : heap :=
  let total := Z.of_nat (List.length entries) in
  let h1 :=
    match result with
    | Fulfilled successCount =>
        if successCount =? total then
          print (InternalLogger.success (logger (self h)) (MsgSentAll successCount)) h
        else
          print (InternalLogger.warn (logger (self h))
                   (MsgSentSome successCount total (total - successCount))) h
    | Rejected e =>
        print (InternalLogger.error (logger (self h)) (MsgFlushFault (messageOf e))) h
    end in
  with_self (set_flushInProgress false) h1.

(** [checkAndFlush()]; nothing follows its [await this.flush()]. *)
Definition checkAndFlush (h : heap) : heap * option (list LogEntry) :=
  if flushInProgress (self h) then (h, None)
  else
    let queueSize := BatchQueue.size (queue h) in
    if queueSize >=? batchSize (self h) then flush h else (h, None).

(** [manualFlush()]; nothing follows its [await this.flush()]. *)
Definition manualFlush (h : heap) : heap * option (list LogEntry) := flush h.

Definition isFlushInProgress (h : heap) : bool := flushInProgress (self h).

(** The oldest pending [sendBatch] settles and the flush that awaits it
    resumes. *)
Definition settle (result : Settled Z) (h : heap) : heap :=
  match inFlight h with
  | [] => h
  | entries :: rest =>
      flush_resume entries result
        {| self := self h; queue := queue h; sendBatchCalls := sendBatchCalls h;
           inFlight := rest; console := console h |}
  end.

(** What can happen to a flusher and its queue, one callback at a time. *)
Inductive trigger : Type :=
| Enqueue (entry : LogEntry)     (* the interceptor calls [queue.add] *)
| Tick                           (* the [setInterval] callback *)
| ManualFlush                    (* [manualFlush()] is called *)
| Settle (result : Settled Z)    (* a pending [sendBatch] settles *)
| Start
| Stop
| BeginShutdown.                 (* [queue.beginShutdown()] *)

Definition react (h : heap) (t : trigger) : heap :=
  match t with
  | Enqueue entry => with_queue (fst (BatchQueue.add entry (queue h))) h
  | Tick =>
      match intervalHandle (self h) with
      | Some _ => fst (checkAndFlush h)
      | None => h
      end
  | ManualFlush => fst (manualFlush h)
  | Settle result => settle result h
  | Start => start h
  | Stop => stop h
  | BeginShutdown => with_queue (BatchQueue.beginShutdown (queue h)) h
  end.

Definition run (ts : list trigger) (h : heap) : heap := fold_left react ts h.

(** A flusher just built over a fresh queue, as [install] builds them. *)
Definition fresh (client : HttpClient.t) (lg : InternalLogger.t) (size : Z) : heap :=
  {| self := new client lg size; queue := BatchQueue.new;
     sendBatchCalls := []; inFlight := []; console := [] |}.

Section Remote.

Variable net : nat -> LogEntry -> Reply.

(** The promise of an [async] call that ran to its end. *)
Definition settled {A} (o : Outcome A) : option (Settled A) :=
  match o with
  | Returned a => Some (Fulfilled a)
  | Threw e => Some (Rejected e)
  | OutOfFuel => None
  end.

(** A flush with nothing else happening until it is over: the call,
    the whole of [sendBatch] against the remote end, the resumption. *)
Definition flush_and_wait (h : heap) (w : World) : heap * World :=
  match flush h with
  | (h1, None) => (h1, w)
  | (h1, Some entries) =>
      let (o, w') := HttpClient.sendBatch net (httpClient (self h1)) entries w in
      match settled o with
      | Some result => (settle result h1, w')
      | None => (h1, w')
      end
  end.

End Remote.

End BatchFlusher.

(* ================================================================== *)
(** * core/environment.ts *)

(** The variables of [process.env] the loader reads. *)
Record ProcessEnv : Type := mkEnv {
  LOGSENTINEL_API_KEY : option string;
  LOGSENTINEL_BASE_URL : option string;
  LOGSENTINEL_DEBUG : option string;
  LOGSENTINEL_BATCH_SIZE : option string
}.

Section Environment.

(** The built-ins of the language the loader calls:
    [String.prototype.trim], whether [new URL(s)] returns, [parseInt(s, 10)]
    with [None] for [NaN], and [s.replace(/\/$/, '')]. *)
Variable trim : string -> string.
Variable URL_parses : string -> bool.
Variable parseInt : string -> option Z.
Variable dropTrailingSlash : string -> string.

(** [!s || s.trim() === ''] *)
Definition blank (o : option string) : bool :=
  match o with
  | None => true
  | Some s => String.eqb s "" || String.eqb (trim s) ""
  end.

Definition loadEnvironmentConfig (env : ProcessEnv) : option EnvConfig :=
  let debug :=
    match LOGSENTINEL_DEBUG env with
    | Some s => String.eqb s "true"
    | None => false
    end in
  (* parseInt(process.env.LOGSENTINEL_BATCH_SIZE || String(BATCH_SIZE), 10) *)
  let batchSize :=
    match LOGSENTINEL_BATCH_SIZE env with
    | Some s => if String.eqb s "" then Some BATCH_SIZE else parseInt s
    | None => Some BATCH_SIZE
    end in
  if blank (LOGSENTINEL_API_KEY env) then None
  else if blank (LOGSENTINEL_BASE_URL env) then None
  else
    match LOGSENTINEL_API_KEY env, LOGSENTINEL_BASE_URL env with
    | Some apiKey, Some baseUrl =>
        if URL_parses baseUrl then
          Some {| apiKey := trim apiKey;
                  baseUrl := dropTrailingSlash (trim baseUrl);
                  debug := debug;
                  batchSize :=
                    match batchSize with
                    | None => BATCH_SIZE        (* isNaN(batchSize) *)
                    | Some n => if n <? 1 then BATCH_SIZE else n
                    end |}
        else None
    | _, _ => None       (* ruled out by the two tests above *)
    end.

End Environment.

(** [isEnvironmentConfigured()]:
    [!!(process.env.LOGSENTINEL_API_KEY && process.env.LOGSENTINEL_BASE_URL)];
    a string is truthy when it is not empty. *)
Definition truthy (o : option string) : bool :=
  match o with
  | Some s => negb (String.eqb s "")
  | None => false
  end.

Definition isEnvironmentConfigured (env : ProcessEnv) : bool :=
  truthy (LOGSENTINEL_API_KEY env) && truthy (LOGSENTINEL_BASE_URL env).

(* ================================================================== *)
(** * core/logsentinel.sdk.ts *)

(** The host application as far as [install] touches it: whether its
    [use] and [useGlobalInterceptors] return or throw. *)
Record INestApplication : Type := mkApp {
  use : option Exn;
  useGlobalInterceptors : option Exn
}.

Module LogSentinelSDK.

Record t : Type := mk {
  options : option LogSentinelOptions;
  logger : option InternalLogger.t;
  queue : option BatchQueue.t;
  flusher : option BatchFlusher.t;
  isEnabled : bool;
  isShuttingDown : bool;
  (* around the object: the interceptor and signal handlers it registered,
     the calls of [sendBatch] made on its behalf, the console *)
  interceptorInstalled : bool;
  hooksRegistered : bool;
  sendBatchCalls : list (list LogEntry);
  inFlight : list (list LogEntry);
  console : list Output
}.

(** [new LogSentinelSDK(options)] *)
Definition new (opts : option LogSentinelOptions) : t :=
  {| options := opts; logger := None; queue := None; flusher := None;
     isEnabled := false; isShuttingDown := false;
     interceptorInstalled := false; hooksRegistered := false;
     sendBatchCalls := []; inFlight := []; console := [] |}.

Definition print (lines : list Output) (s : t) : t :=
  {| options := options s; logger := logger s; queue := queue s;
     flusher := flusher s; isEnabled := isEnabled s;
     isShuttingDown := isShuttingDown s;
     interceptorInstalled := interceptorInstalled s;
     hooksRegistered := hooksRegistered s;
     sendBatchCalls := sendBatchCalls s; inFlight := inFlight s;
     console := console s ++ lines |}.

(** [this.logger?.m(...)] *)
Definition log (m : InternalLogger.t -> Message -> list Output) (msg : Message)
    (s : t) : t :=
  match logger s with
  | Some lg => print (m lg msg) s
  | None => s
  end.

(** The flusher of the SDK seen with the objects it acts on. *)
Definition heap_of (q : BatchQueue.t) (f : BatchFlusher.t) (s : t) : BatchFlusher.heap :=
  {| BatchFlusher.self := f; BatchFlusher.queue := q;
     BatchFlusher.sendBatchCalls := sendBatchCalls s;
     BatchFlusher.inFlight := inFlight s;
     BatchFlusher.console := console s |}.

Definition store (h : BatchFlusher.heap) (s : t) : t :=
  {| options := options s; logger := logger s;
     queue := Some (BatchFlusher.queue h);
     flusher := Some (BatchFlusher.self h);
     isEnabled := isEnabled s; isShuttingDown := isShuttingDown s;
     interceptorInstalled := interceptorInstalled s;
     hooksRegistered := hooksRegistered s;
     sendBatchCalls := BatchFlusher.sendBatchCalls h;
     inFlight := BatchFlusher.inFlight h;
     console := BatchFlusher.console h |}.

Definition orElse {A} (o : option A) (d : A) : A :=
  match o with
  | Some a => a
  | None => d
  end.

(** [install(app)], given what [loadEnvironmentConfig()] returned. *)
Definition install (envConfig : option EnvConfig) (app : INestApplication)
    (s : t) : t :=
  match envConfig with
  | None => print [WarnDisabledNoConfig] s
  | Some envConfig =>
      let config :=
        {| apiKey := apiKey envConfig; baseUrl := baseUrl envConfig;
           debug := orElse (match options s with
                            | Some o => opt_debug o
                            | None => None
                            end) (debug envConfig);
           batchSize := orElse (match options s with
                                | Some o => opt_batchSize o
                                | None => None
                                end) (batchSize envConfig) |} in
      let lg := InternalLogger.mk (debug config) in
      let httpClient := HttpClient.mk config lg (debug config) in
      let s1 :=
        print (InternalLogger.info lg MsgInitializing)
          {| options := options s; logger := Some lg;
             queue := Some BatchQueue.new;
             flusher := Some (BatchFlusher.new httpClient lg (batchSize config));
             isEnabled := isEnabled s; isShuttingDown := isShuttingDown s;
             interceptorInstalled := interceptorInstalled s;
             hooksRegistered := hooksRegistered s;
             sendBatchCalls := sendBatchCalls s; inFlight := inFlight s;
             console := console s |} in
      let failed (e : Exn) (s' : t) : t :=
        print [WarnDisabledInitError]
              (print (InternalLogger.error lg (MsgInitFault (messageOf e))) s') in
      match use app with
      | Some e => failed e s1
      | None =>
          match useGlobalInterceptors app with
          | Some e => failed e s1
          | None =>
              let h := BatchFlusher.start
                         (heap_of BatchQueue.new
                            (BatchFlusher.new httpClient lg (batchSize config)) s1) in
              let s2 := store h s1 in
              print (InternalLogger.success lg MsgInitialized
                     ++ InternalLogger.info lg
                          (MsgSettings (batchSize config) (debug config)))
                {| options := options s2; logger := logger s2; queue := queue s2;
                   flusher := flusher s2; isEnabled := true;
                   isShuttingDown := isShuttingDown s2;
                   interceptorInstalled := true; hooksRegistered := true;
                   sendBatchCalls := sendBatchCalls s2; inFlight := inFlight s2;
                   console := console s2 |}
          end
      end
  end.

(** The interceptor handing a finished entry to the queue it was given:
    [this.queue.add(logEntry)] and the debug line that follows. *)
Definition capture (logEntry : LogEntry) (s : t) : t * bool :=
  match queue s with
  | Some q =>
      if interceptorInstalled s then
        let (q', added) := BatchQueue.add logEntry q in
        let s' :=
          {| options := options s; logger := logger s; queue := Some q';
             flusher := flusher s; isEnabled := isEnabled s;
             isShuttingDown := isShuttingDown s;
             interceptorInstalled := interceptorInstalled s;
             hooksRegistered := hooksRegistered s;
             sendBatchCalls := sendBatchCalls s; inFlight := inFlight s;
             console := console s |} in
        (if added then log InternalLogger.debug (MsgCaptured logEntry) s' else s',
         added)
      else (s, false)
  | None => (s, false)
  end.

(** [isActive()] *)
Definition isActive (s : t) : bool := isEnabled s && negb (isShuttingDown s).

(** [getQueueSize()]: [this.queue?.size() ?? 0] *)
Definition getQueueSize (s : t) : Z :=
  match queue s with
  | Some q => BatchQueue.size q
  | None => 0
  end.

(** What [shutdown()] leaves behind: the SDK when it returns, the value of
    [remaining] if it got to compute one, and the time it took. *)
Record report : Type := mkReport {
  after : t;
  remaining : option Z;
  waited : Z
}.

Section Remote.

Variable net : nat -> LogEntry -> Reply.

(** [await Promise.race([flushPromise, timeoutPromise])], where
    [awaited] is the batch whose [sendBatch] the flush behind
    [flushPromise] awaits, if it has not returned already: the flusher
    and its queue when the race is over, and the time the race took.
    The flush wins if [sendBatch] settles before the grace period is
    over; otherwise the timer wins and the flush stays in flight. *)
Definition race (h : BatchFlusher.heap) (awaited : option (list LogEntry))
    (w : World) : BatchFlusher.heap * Z :=
  match awaited with
  | None => (h, 0)
  | Some entries =>
      let (o, w') :=
        HttpClient.sendBatch net (BatchFlusher.httpClient (BatchFlusher.self h))
                             entries w in
      let took := clock w' - clock w in
      match BatchFlusher.settled o with
      | Some result =>
          if took <? SHUTDOWN_GRACE_PERIOD_MS
          then (BatchFlusher.settle result h, took)
          else (h, SHUTDOWN_GRACE_PERIOD_MS)
      | None => (h, SHUTDOWN_GRACE_PERIOD_MS)
      end
  end.

(** [shutdown()].  [manualFlush()] is called, and so runs up to its
    first [await], before the grace timer is even created.  None of
    the calls in the [try] can throw, so its [catch] is never entered. *)
Definition shutdown (s : t) (w : World) : report :=
  match isEnabled s, queue s, flusher s with
  | true, Some q, Some f =>
      let h0 := heap_of q f s in
      let h1 := BatchFlusher.with_queue
                  (BatchQueue.beginShutdown (BatchFlusher.queue h0)) h0 in
      let h2 := BatchFlusher.stop h1 in
      let (h3, awaited) := BatchFlusher.manualFlush h2 in
      let (h4, took) := race h3 awaited w in
      let s4 := store h4 s in
      let remaining := BatchQueue.size (BatchFlusher.queue h4) in
      {| after := if remaining >? 0
                  then log InternalLogger.warn (MsgUnsent remaining) s4
                  else log InternalLogger.success MsgAllFlushed s4;
         remaining := Some remaining;
         waited := took |}
  | _, _, _ => {| after := s; remaining := None; waited := 0 |}
  end.

(** The handler [registerShutdownHooks] installs for SIGINT, SIGTERM and
    beforeExit. *)
Definition shutdownHandler (signal : string) (s : t) (w : World) : report :=
  if negb (hooksRegistered s) || isShuttingDown s then
    {| after := s; remaining := None; waited := 0 |}
  else
    shutdown
      (log InternalLogger.info (MsgSignal signal)
         {| options := options s; logger := logger s; queue := queue s;
            flusher := flusher s; isEnabled := isEnabled s;
            isShuttingDown := true;
            interceptorInstalled := interceptorInstalled s;
            hooksRegistered := hooksRegistered s;
            sendBatchCalls := sendBatchCalls s; inFlight := inFlight s;
            console := console s |})
      w.

End Remote.

End LogSentinelSDK.

(* ================================================================== *)
(** * Vocabulary of the properties *)

(** The bodies of the requests in a trace, in order; and the requests and
    the waits between them, in order. *)
Fixpoint fetched (evs : list Event) : list LogEntry :=
  match evs with
  | [] => []
  | Fetch _ _ body :: rest => body :: fetched rest
  | _ :: rest => fetched rest
  end.

Inductive Step : Type :=
| Request (body : LogEntry)
| Wait (ms : Z).

Fixpoint steps (evs : list Event) : list Step :=
  match evs with
  | [] => []
  | Fetch _ _ body :: rest => Request body :: steps rest
  | Delay ms :: rest => Wait ms :: steps rest
  | Console _ :: rest => steps rest
  end.

(** The three kinds of answer the specification tells apart: a 2xx status,
    a 4xx status, and a 5xx status or a failure of the network (a refused
    or broken connection, a timeout). *)
Definition delivered (r : Reply) : bool :=
  match answer r with
  | Responds status => (200 <=? status) && (status <=? 299)
  | Rejects _ => false
  end.

Definition rejected_permanently (r : Reply) : bool :=
  match answer r with
  | Responds status => (400 <=? status) && (status <=? 499)
  | Rejects _ => false
  end.

Definition transient (r : Reply) : bool :=
  match answer r with
  | Responds status => (500 <=? status) && (status <=? 599)
  | Rejects _ => true
  end.

(** The calls of [sendLog] a batch gives rise to, one after the other: each
    starts in the world the one before it ended in, and [results] are the
    booleans they returned. *)
Inductive delivers_in_order (net : nat -> LogEntry -> Reply) (self : HttpClient.t)
  : list LogEntry -> World -> list bool -> World -> Prop :=
| dio_done : forall w, delivers_in_order net self [] w [] w
| dio_next : forall entry rest w b w1 results w2,
    HttpClient.sendLog net self entry w = (Returned b, w1) ->
    delivers_in_order net self rest w1 results w2 ->
    delivers_in_order net self (entry :: rest) w (b :: results) w2.

(** The number of [true] among the results. *)
Definition successes (results : list bool) : Z :=
  Z.of_nat (List.length (filter (fun b : bool => b) results)).

(** A remote end that never answers, and one that answers everything with
    a given status after a given time. *)
Definition silent : nat -> LogEntry -> Reply :=
  fun _ _ => {| latency := None; settle := Responds 200 |}.

Definition always (status : Z) (ms : Z) : nat -> LogEntry -> Reply :=
  fun _ _ => {| latency := Some ms; settle := Responds status |}.

(** Sample data. *)
Definition sample (path : string) : LogEntry :=
  {| timestamp := "2024-01-15T10:30:00.000Z"; method := "GET"; url := path;
     query := Some (JsObject []); requestHeaders := Some (JsObject []);
     requestBody := None; statusCode := Some 200;
     responseBody := Some (JsObject [("id", JsString "123")]);
     executionTimeMs := Some 4567; error := None |}.

(** An entry whose response body is a value JSON cannot carry: a handler
    that returned a [BigInt], which the interceptor, sanitising objects
    only, copies into the entry as it is. *)
Definition unserializable : LogEntry :=
  {| timestamp := "2024-01-15T10:30:00.000Z"; method := "POST"; url := "/api/users";
     query := None; requestHeaders := None;
     requestBody := None; statusCode := Some 201;
     responseBody := Some (JsBigInt 1); executionTimeMs := Some 100;
     error := None |}.

Definition sampleConfig (dbg : bool) : EnvConfig :=
  {| apiKey := "key"; baseUrl := "https://collector.example"; debug := dbg;
     batchSize := BATCH_SIZE |}.

Definition sampleClient (dbg : bool) : HttpClient.t :=
  HttpClient.mk (sampleConfig dbg) (InternalLogger.mk dbg) dbg.

Definition world0 : World := {| clock := 0; fetches := 0; trace := [] |}.

Definition cooperativeApp : INestApplication :=
  {| use := None; useGlobalInterceptors := None |}.

(** A remote end that answers 503 three times and 200 from then on. *)
Definition flaky : nat -> LogEntry -> Reply :=
  fun n _ => {| latency := Some 20;
                settle := Responds (if (n <? 3)%nat then 503 else 200) |}.

(** At most one flush is under way, and the guard says whether one is. *)
Definition single_flight (h : BatchFlusher.heap) : Prop :=
  (BatchFlusher.flushInProgress (BatchFlusher.self h) = false
   /\ BatchFlusher.inFlight h = [])
  \/ (BatchFlusher.flushInProgress (BatchFlusher.self h) = true
      /\ exists entries, BatchFlusher.inFlight h = [entries]).

(** A flusher whose guard is taken by a flush of one entry under way, with
    two entries waiting in the queue, and an idle one with the same queue. *)
Definition busyFlusher : BatchFlusher.heap :=
  BatchFlusher.run
    [BatchFlusher.Start; BatchFlusher.Enqueue (sample "/0");
     BatchFlusher.ManualFlush;
     BatchFlusher.Enqueue (sample "/1"); BatchFlusher.Enqueue (sample "/2")]
    (BatchFlusher.fresh (sampleClient false) (InternalLogger.mk false) 2).

Definition idleFlusher : BatchFlusher.heap :=
  BatchFlusher.run
    [BatchFlusher.Start;
     BatchFlusher.Enqueue (sample "/1"); BatchFlusher.Enqueue (sample "/2")]
    (BatchFlusher.fresh (sampleClient false) (InternalLogger.mk false) 2).

Definition fiveEntries : list LogEntry :=
  [sample "/1"; sample "/2"; sample "/3"; sample "/4"; sample "/5"].

(** An SDK installed with the default threshold of five, and the same after
    the interceptor has captured two entries. *)
Definition installedSDK (dbg : bool) : LogSentinelSDK.t :=
  LogSentinelSDK.install (Some (sampleConfig dbg)) cooperativeApp
    (LogSentinelSDK.new None).

Definition sdkHoldingTwo (dbg : bool) : LogSentinelSDK.t :=
  fst (LogSentinelSDK.capture (sample "/2")
         (fst (LogSentinelSDK.capture (sample "/1") (installedSDK dbg)))).

(** The configuration in the environment is missing or invalid: the key or
    the base URL is absent or blank, or the base URL is not a URL. *)
Definition misconfigured (trim : string -> string) (URL_parses : string -> bool)
    (env : ProcessEnv) : bool :=
  blank trim (LOGSENTINEL_API_KEY env)
  || blank trim (LOGSENTINEL_BASE_URL env)
  || match LOGSENTINEL_BASE_URL env with
     | Some u => negb (URL_parses u)
     | None => true
     end.

Definition emptyEnv : ProcessEnv :=
  {| LOGSENTINEL_API_KEY := None; LOGSENTINEL_BASE_URL := None;
     LOGSENTINEL_DEBUG := None; LOGSENTINEL_BATCH_SIZE := None |}.

(** The lines printed in a trace, in order. *)
Fixpoint printed (evs : list Event) : list Output :=
  match evs with
  | [] => []
  | Console o :: rest => o :: printed rest
  | _ :: rest => printed rest
  end.

(** Every request among the events goes to the one endpoint, with the one
    authorization header, and carries the one body. *)
Definition sends_only (endpoint authorization : string) (body : LogEntry)
    (evs : list Event) : Prop :=
  Forall (fun ev => match ev with
                    | Fetch a b c => a = endpoint /\ b = authorization /\ c = body
                    | _ => True
                    end) evs.

(** The entries a sequence of triggers gets into the queue: those enqueued
    while the queue is open, [closed] telling whether it is shut already. *)
Fixpoint accepted (closed : bool) (ts : list BatchFlusher.trigger) : list LogEntry :=
  match ts with
  | [] => []
  | BatchFlusher.Enqueue entry :: rest =>
      if closed then accepted closed rest else entry :: accepted closed rest
  | BatchFlusher.BeginShutdown :: rest => accepted true rest
  | _ :: rest => accepted closed rest
  end.

(** Whether the [n]-th, [n+1]-th, ... requests are answered with a 2xx
    status when they carry the entries of a batch, one each. *)
Fixpoint first_answers (net : nat -> LogEntry -> Reply) (n : nat)
    (entries : list LogEntry) : list bool :=
  match entries with
  | [] => []
  | e :: rest => delivered (net n e) :: first_answers net (S n) rest
  end.

(** The longest [sendLog] can take from its attempt number [k] on: the
    attempts left, each cut at [HTTP_TIMEOUT_MS], and the waits between
    them; and the longest it can take in all. *)
Definition retry_budget (k : Z) : Z :=
  if k <=? MAX_RETRIES
  then (MAX_RETRIES + 1 - k) * HTTP_TIMEOUT_MS
       + RETRY_DELAY_MS * (6 - k * (k + 1) / 2)
  else 0.

Definition SENDLOG_WORST_CASE_MS : Z := retry_budget 0.

(** An application whose [use] throws. *)
Definition hostileApp : INestApplication :=
  {| use := Some (JsError "Error" "app.use is not a function");
     useGlobalInterceptors := None |}.

(* ================================================================== *)
(** * Properties of the queue *)

Section QueueFacts.

Import BatchQueue.

Lemma add_all_open : forall entries q,
  isShuttingDown q = false ->
  add_all entries q =
    {| queue := queue q ++ entries; isShuttingDown := false |}.
Proof.
  induction entries as [|e es IH]; intros [items flag] Hopen;
    simpl in Hopen; subst flag.
  - unfold add_all; simpl. now rewrite app_nil_r.
  - unfold add_all in *; simpl.
    rewrite IH by reflexivity. simpl.
    now rewrite <- app_assoc.
Qed.

Lemma perform_keeps_shutdown : forall c q,
  isShuttingDown q = true -> isShuttingDown (perform c q) = true.
Proof.
  intros c q H. destruct c; simpl; auto.
  unfold add. now rewrite H.
Qed.

Lemma perform_all_keeps_shutdown : forall cs q,
  isShuttingDown q = true -> isShuttingDown (perform_all cs q) = true.
Proof.
  induction cs as [|c cs IH]; intros q H; simpl; auto.
  apply IH. now apply perform_keeps_shutdown.
Qed.

End QueueFacts.

(** C6. Buffer drain correctness: on a fresh queue, which is not shutting
    down, N [add] calls followed by one [getAndClear] return exactly the N
    added entries in call order, every [add] having been accepted, and
    [size] called after the drain returns 0. *)
Theorem drain_returns_all_in_order : forall entries : list LogEntry,
  let filled := BatchQueue.add_all entries BatchQueue.new in
  let drained := BatchQueue.getAndClear filled in
  snd drained = entries
  /\ BatchQueue.size filled = Z.of_nat (List.length entries)
  /\ BatchQueue.size (fst drained) = 0.
Proof.
  intros entries filled drained. subst drained filled.
  rewrite add_all_open by reflexivity.
  unfold BatchQueue.getAndClear, BatchQueue.size; simpl.
  repeat split; reflexivity.
Qed.

(** C7. Shutdown flag semantics: [beginShutdown] is idempotent, and once it
    has been called, whatever calls are made on the queue afterwards, every
    later [add] returns false and leaves the queue as it found it: nothing
    held is dropped and nothing is appended. *)
Theorem add_after_shutdown_rejected :
  forall (q : BatchQueue.t) (later : list BatchQueue.call) (entry : LogEntry),
    BatchQueue.beginShutdown (BatchQueue.beginShutdown q) = BatchQueue.beginShutdown q
    /\ let q' := BatchQueue.perform_all later (BatchQueue.beginShutdown q) in
       BatchQueue.add entry q' = (q', false).
Proof.
  intros q later entry. split; [reflexivity|].
  intros q'.
  assert (H : BatchQueue.isShuttingDown q' = true)
    by (apply perform_all_keeps_shutdown; reflexivity).
  unfold BatchQueue.add. now rewrite H.
Qed.

(* ================================================================== *)
(** * Properties of the transport *)

Section TransportFacts.

Import HttpClient.

Variable net : nat -> LogEntry -> Reply.

Lemma fetched_app : forall xs ys, fetched (xs ++ ys) = fetched xs ++ fetched ys.
Proof.
  induction xs as [|x xs IH]; intros ys; simpl; auto.
  destruct x; simpl; rewrite IH; reflexivity.
Qed.

Lemma steps_app : forall xs ys, steps (xs ++ ys) = steps xs ++ steps ys.
Proof.
  induction xs as [|x xs IH]; intros ys; simpl; auto.
  destruct x; simpl; rewrite IH; reflexivity.
Qed.

Lemma fetched_console : forall lines, fetched (map Console lines) = [].
Proof. induction lines; simpl; auto. Qed.

Lemma steps_console : forall lines, steps (map Console lines) = [].
Proof. induction lines; simpl; auto. Qed.

(** Printing adds neither a request nor a wait to a trace. *)
Lemma say_quiet : forall lines w,
  exists w', say lines w = (Returned tt, w')
    /\ fetches w' = fetches w /\ clock w' = clock w
    /\ fetched (trace w') = fetched (trace w)
    /\ steps (trace w') = steps (trace w).
Proof.
  intros lines w. eexists. split; [reflexivity|]. simpl.
  rewrite fetched_app, steps_app, fetched_console, steps_console, !app_nil_r.
  auto.
Qed.

Ltac quiet lines w :=
  let w' := fresh "w" in
  let E := fresh "E" in
  let Qf := fresh "Qf" in
  let Qc := fresh "Qc" in
  let Qt := fresh "Qt" in
  let Qw := fresh "Qw" in
  destruct (say_quiet lines w) as (w' & E & Qf & Qc & Qt & Qw);
  rewrite E; clear E.

(** One attempt on an entry that serialises: the request goes out once,
    no wait is made, and the attempt ends the loop or not according to
    the answer. *)
Lemma attempt_once_sent : forall self endpoint e k w,
  entry_stringifies e = true ->
  let r := net (fetches w) e in
  exists flow w',
    attempt_once net self endpoint e k w = (Returned flow, w')
    /\ fetches w' = S (fetches w)
    /\ clock w' = clock w + duration r
    /\ fetched (trace w') = fetched (trace w) ++ [e]
    /\ steps (trace w') = steps (trace w) ++ [Request e]
    /\ (delivered r = true -> flow = Return true)
    /\ (rejected_permanently r = true -> flow = Return false)
    /\ (transient r = true ->
        flow = Continue \/ (k = MAX_RETRIES /\ flow = Return false)).
Proof.
  intros self endpoint e k w Hs r.
  unfold attempt_once, try_catch, bind, JSON_stringify, fetch, ret, throw.
  rewrite Hs. fold r.
  unfold delivered, rejected_permanently, transient.
  set (w1 := elapse (duration r) _).
  assert (Hw1 : fetches w1 = S (fetches w) /\ clock w1 = clock w + duration r
                /\ fetched (trace w1) = fetched (trace w) ++ [e]
                /\ steps (trace w1) = steps (trace w) ++ [Request e]).
  { subst w1; simpl. rewrite fetched_app, steps_app; simpl. auto. }
  destruct Hw1 as (F1 & C1 & T1 & W1). clearbody w1.
  destruct (answer r) as [status|err].
  - unfold ok. destruct ((200 <=? status) && (status <=? 299)) eqn:Hok.
    + quiet (InternalLogger.debug (logger self) (MsgLogSent (k + 1))) w1.
      do 2 eexists. split; [reflexivity|].
      repeat split; try congruence.
      * intros H. apply andb_true_iff in H, Hok. lia.
      * intros H. apply andb_true_iff in H, Hok. lia.
    + destruct ((status >=? 400) && (status <? 500)) eqn:H4.
      * quiet (InternalLogger.warn (logger self) (MsgRejected status)) w1.
        do 2 eexists. split; [reflexivity|].
        repeat split; try congruence.
        intros H. apply andb_true_iff in H, H4. lia.
      * quiet (InternalLogger.warn (logger self)
                 (MsgServerError status (k + 1) (MAX_RETRIES + 1))) w1.
        do 2 eexists. split; [reflexivity|].
        repeat split; try congruence; auto.
        intros H. apply andb_true_iff in H. apply andb_false_iff in H4. lia.
  - destruct (isAbortError err).
    + quiet (InternalLogger.warn (logger self) (MsgTimeout (k + 1))) w1.
      destruct (k =? MAX_RETRIES) eqn:Hk.
      * quiet (InternalLogger.error (logger self) MsgGaveUp) w0.
        do 2 eexists. split; [reflexivity|].
        repeat split; try congruence.
        intros _. right. split; [lia|reflexivity].
      * do 2 eexists. split; [reflexivity|].
        repeat split; try congruence; auto.
    + quiet (InternalLogger.warn (logger self)
               (MsgNetworkError (messageOf err) (k + 1) (MAX_RETRIES + 1))) w1.
      destruct (k =? MAX_RETRIES) eqn:Hk.
      * quiet (InternalLogger.error (logger self) MsgGaveUp) w0.
        do 2 eexists. split; [reflexivity|].
        repeat split; try congruence.
        intros _. right. split; [lia|reflexivity].
      * do 2 eexists. split; [reflexivity|].
        repeat split; try congruence; auto.
Qed.

(** One attempt on an entry that does not serialise: nothing goes out,
    and the failure is handled like one of the network. *)
Lemma attempt_once_unsent : forall self endpoint e k w,
  entry_stringifies e = false ->
  exists flow w',
    attempt_once net self endpoint e k w = (Returned flow, w')
    /\ fetches w' = fetches w
    /\ clock w' = clock w
    /\ fetched (trace w') = fetched (trace w)
    /\ steps (trace w') = steps (trace w)
    /\ (flow = Continue \/ (k = MAX_RETRIES /\ flow = Return false)).
Proof.
  intros self endpoint e k w Hs.
  unfold attempt_once, try_catch, bind, JSON_stringify, ret, throw.
  rewrite Hs. cbv beta iota.
  change (isAbortError StringifyError) with false. cbv iota.
  quiet (InternalLogger.warn (logger self)
           (MsgNetworkError (messageOf StringifyError) (k + 1)
                            (MAX_RETRIES + 1))) w.
  destruct (k =? MAX_RETRIES) eqn:Hk.
  - quiet (InternalLogger.error (logger self) MsgGaveUp) w0.
    do 2 eexists. split; [reflexivity|].
    repeat split; try congruence. right. split; [lia|reflexivity].
  - do 2 eexists. split; [reflexivity|].
    repeat split; try congruence; auto.
Qed.

Lemma delay_waits : forall ms w,
  exists w', delay ms w = (Returned tt, w')
    /\ fetches w' = fetches w /\ clock w' = clock w + ms
    /\ fetched (trace w') = fetched (trace w)
    /\ steps (trace w') = steps (trace w) ++ [Wait ms].
Proof.
  intros ms w. eexists. split; [reflexivity|]. simpl.
  rewrite fetched_app, steps_app; simpl. rewrite app_nil_r. auto.
Qed.

(** Past the last attempt the loop is left and [false] is returned. *)
Lemma retry_loop_exit : forall fuel self endpoint e k w,
  MAX_RETRIES < k ->
  retry_loop net fuel self endpoint e k w = (Returned false, w).
Proof.
  intros fuel self endpoint e k w Hk.
  assert (C : (k <=? MAX_RETRIES) = false) by lia.
  destruct fuel; simpl; rewrite C; reflexivity.
Qed.

(** A transient failure before the last attempt: one request, then a
    wait of [RETRY_DELAY_MS * (attempt + 1)], then the next attempt. *)
Lemma retry_loop_transient : forall fuel self endpoint e k w,
  entry_stringifies e = true ->
  k < MAX_RETRIES ->
  transient (net (fetches w) e) = true ->
  exists w',
    retry_loop net (S fuel) self endpoint e k w
      = retry_loop net fuel self endpoint e (k + 1) w'
    /\ fetches w' = S (fetches w)
    /\ clock w' = clock w + duration (net (fetches w) e) + RETRY_DELAY_MS * (k + 1)
    /\ fetched (trace w') = fetched (trace w) ++ [e]
    /\ steps (trace w')
       = steps (trace w) ++ [Request e; Wait (RETRY_DELAY_MS * (k + 1))].
Proof.
  intros fuel self endpoint e k w Hs Hk Ht.
  assert (C1 : (k <=? MAX_RETRIES) = true) by lia.
  assert (C2 : (k <? MAX_RETRIES) = true) by lia.
  cbn [retry_loop]. rewrite C1, C2. unfold bind at 1.
  destruct (attempt_once_sent self endpoint e k w Hs)
    as (flow & w1 & E & F1 & K1 & T1 & W1 & _ & _ & Hflow).
  rewrite E. destruct (Hflow Ht) as [-> | [Hmax _]]; [|lia].
  unfold bind at 1.
  destruct (delay_waits (RETRY_DELAY_MS * (k + 1)) w1)
    as (w2 & E2 & F2 & K2 & T2 & W2).
  rewrite E2. exists w2. split; [reflexivity|].
  repeat split; try congruence.
  rewrite W2, W1, <- app_assoc. reflexivity.
Qed.

(** A transient failure at the last attempt: one request, no wait, and
    [false] is returned. *)
Lemma retry_loop_exhausted : forall fuel self endpoint e w,
  entry_stringifies e = true ->
  transient (net (fetches w) e) = true ->
  exists w',
    retry_loop net (S fuel) self endpoint e MAX_RETRIES w = (Returned false, w')
    /\ fetches w' = S (fetches w)
    /\ clock w' = clock w + duration (net (fetches w) e)
    /\ fetched (trace w') = fetched (trace w) ++ [e]
    /\ steps (trace w') = steps (trace w) ++ [Request e].
Proof.
  intros fuel self endpoint e w Hs Ht.
  cbn [retry_loop].
  change (MAX_RETRIES <=? MAX_RETRIES) with true.
  change (MAX_RETRIES <? MAX_RETRIES) with false. cbv iota.
  unfold bind at 1.
  destruct (attempt_once_sent self endpoint e MAX_RETRIES w Hs)
    as (flow & w1 & E & F1 & K1 & T1 & W1 & _ & _ & Hflow).
  rewrite E. exists w1.
  destruct (Hflow Ht) as [-> | [_ ->]].
  - unfold bind, ret. rewrite retry_loop_exit by (unfold MAX_RETRIES; lia).
    auto.
  - auto.
Qed.

(** A 2xx answer ends the loop with [true]. *)
Lemma retry_loop_delivered : forall fuel self endpoint e k w,
  entry_stringifies e = true ->
  k <= MAX_RETRIES ->
  delivered (net (fetches w) e) = true ->
  exists w',
    retry_loop net (S fuel) self endpoint e k w = (Returned true, w')
    /\ fetches w' = S (fetches w)
    /\ clock w' = clock w + duration (net (fetches w) e)
    /\ fetched (trace w') = fetched (trace w) ++ [e]
    /\ steps (trace w') = steps (trace w) ++ [Request e].
Proof.
  intros fuel self endpoint e k w Hs Hk Hd.
  assert (C1 : (k <=? MAX_RETRIES) = true) by lia.
  cbn [retry_loop]. rewrite C1. unfold bind at 1.
  destruct (attempt_once_sent self endpoint e k w Hs)
    as (flow & w1 & E & F1 & K1 & T1 & W1 & Hflow & _ & _).
  rewrite E, (Hflow Hd). exists w1. auto.
Qed.

(** A 4xx answer ends the loop with [false]. *)
Lemma retry_loop_rejected : forall fuel self endpoint e k w,
  entry_stringifies e = true ->
  k <= MAX_RETRIES ->
  rejected_permanently (net (fetches w) e) = true ->
  exists w',
    retry_loop net (S fuel) self endpoint e k w = (Returned false, w')
    /\ fetches w' = S (fetches w)
    /\ clock w' = clock w + duration (net (fetches w) e)
    /\ fetched (trace w') = fetched (trace w) ++ [e]
    /\ steps (trace w') = steps (trace w) ++ [Request e].
Proof.
  intros fuel self endpoint e k w Hs Hk Hd.
  assert (C1 : (k <=? MAX_RETRIES) = true) by lia.
  cbn [retry_loop]. rewrite C1. unfold bind at 1.
  destruct (attempt_once_sent self endpoint e k w Hs)
    as (flow & w1 & E & F1 & K1 & T1 & W1 & _ & Hflow & _).
  rewrite E, (Hflow Hd). exists w1. auto.
Qed.

(** With enough iterations for the attempts that are left, the loop
    returns, and all it sends is the one entry, again and again. *)
Lemma retry_loop_returns : forall fuel self endpoint e k w,
  MAX_RETRIES + 1 - k <= Z.of_nat fuel ->
  exists b w' n,
    retry_loop net fuel self endpoint e k w = (Returned b, w')
    /\ (n <= fuel)%nat
    /\ fetches w' = (fetches w + n)%nat
    /\ fetched (trace w') = fetched (trace w) ++ repeat e n.
Proof.
  induction fuel as [|fuel IH]; intros self endpoint e k w Hfuel.
  - rewrite retry_loop_exit by lia.
    exists false, w, 0%nat. simpl. rewrite app_nil_r. auto with arith.
  - destruct (Z.leb_spec k MAX_RETRIES) as [Hk|Hk];
      [|rewrite retry_loop_exit by lia;
        exists false, w, 0%nat; simpl; rewrite app_nil_r; auto with arith].
    assert (C1 : (k <=? MAX_RETRIES) = true) by lia.
    cbn [retry_loop]. rewrite C1. unfold bind at 1.
    assert (Hone : exists flow w1 m,
               attempt_once net self endpoint e k w = (Returned flow, w1)
               /\ (m <= 1)%nat
               /\ fetches w1 = (fetches w + m)%nat
               /\ fetched (trace w1) = fetched (trace w) ++ repeat e m).
    { destruct (entry_stringifies e) eqn:Hs.
      - destruct (attempt_once_sent self endpoint e k w Hs)
          as (flow & w1 & E & F1 & _ & T1 & W1 & _).
        exists flow, w1, 1%nat. simpl. repeat split; auto. lia.
      - destruct (attempt_once_unsent self endpoint e k w Hs)
          as (flow & w1 & E & F1 & _ & T1 & W1 & _).
        exists flow, w1, 0%nat. simpl. rewrite app_nil_r.
        repeat split; auto. lia. }
    destruct Hone as (flow & w1 & m & E & Hm & F1 & T1).
    rewrite E. destruct flow as [b|].
    + exists b, w1, m. repeat split; auto. lia.
    + unfold bind at 1.
      assert (Hwait : exists w2,
                 (if k <? MAX_RETRIES
                  then delay (RETRY_DELAY_MS * (k + 1)) else ret tt) w1
                   = (Returned tt, w2)
                 /\ fetches w2 = fetches w1
                 /\ fetched (trace w2) = fetched (trace w1)).
      { destruct (k <? MAX_RETRIES).
        - destruct (delay_waits (RETRY_DELAY_MS * (k + 1)) w1)
            as (w2 & E2 & F2 & _ & T2 & _). eauto.
        - exists w1. auto. }
      destruct Hwait as (w2 & E2 & F2 & T2). rewrite E2.
      destruct (IH self endpoint e (k + 1) w2) as (b & w3 & n & E3 & Hn & F3 & T3);
        [lia|].
      exists b, w3, (m + n)%nat. split; [exact E3|].
      repeat split; [lia|lia|].
      rewrite T3, T2, T1, <- app_assoc, repeat_app. reflexivity.
Qed.

(** What precedes the loop in [sendLog] when it does not throw. *)
Lemma sendLog_preamble : forall self e w,
  debug self = false \/ entry_stringifies e = true ->
  exists w0,
    (if debug self
     then bind (JSON_stringify e) (fun _ => say [DebugSendingLog e])
     else ret tt) w = (Returned tt, w0)
    /\ fetches w0 = fetches w /\ clock w0 = clock w
    /\ fetched (trace w0) = fetched (trace w)
    /\ steps (trace w0) = steps (trace w).
Proof.
  intros self e w H. destruct (debug self) eqn:Hd.
  - destruct H as [H|H]; [discriminate|].
    unfold bind, JSON_stringify. rewrite H. unfold ret at 1.
    apply say_quiet.
  - exists w. auto.
Qed.

(** Outside debug mode, or on an entry that serialises, [sendLog]
    returns; what it sends is the entry, at most four times. *)
Lemma sendLog_returns : forall self e w,
  debug self = false \/ entry_stringifies e = true ->
  exists b w' n,
    sendLog net self e w = (Returned b, w')
    /\ (n <= 4)%nat
    /\ fetches w' = (fetches w + n)%nat
    /\ fetched (trace w') = fetched (trace w) ++ repeat e n.
Proof.
  intros self e w H. unfold sendLog. unfold bind at 1.
  destruct (sendLog_preamble self e w H) as (w0 & E0 & F0 & _ & T0 & _).
  rewrite E0.
  destruct (retry_loop_returns (Z.to_nat (MAX_RETRIES + 1)) self
              (String.append (baseUrl (config self)) "/api/sdk/logs") e 0 w0)
    as (b & w' & n & E & Hn & F & T); [unfold MAX_RETRIES; simpl; lia|].
  exists b, w', n. split; [exact E|].
  repeat split; [exact Hn|congruence|congruence].
Qed.

(** In debug mode, an entry that does not serialise makes [sendLog]
    throw before its loop and its [try] are entered. *)
Lemma sendLog_debug_throws : forall self e w,
  debug self = true -> entry_stringifies e = false ->
  sendLog net self e w = (Threw StringifyError, w).
Proof.
  intros self e w Hd Hs. unfold sendLog, bind, JSON_stringify, throw.
  rewrite Hd, Hs. reflexivity.
Qed.

(** [sendLog] is never short of iterations. *)
Lemma sendLog_settles : forall self e w,
  exists result w',
    BatchFlusher.settled (fst (sendLog net self e w)) = Some result
    /\ snd (sendLog net self e w) = w'.
Proof.
  intros self e w.
  destruct (debug self) eqn:Hd; [destruct (entry_stringifies e) eqn:Hs|].
  - destruct (sendLog_returns self e w (or_intror Hs)) as (b & w' & n & E & _).
    rewrite E. simpl. eauto.
  - rewrite sendLog_debug_throws by assumption. simpl. eauto.
  - destruct (sendLog_returns self e w (or_introl Hd)) as (b & w' & n & E & _).
    rewrite E. simpl. eauto.
Qed.

End TransportFacts.

(** C2. Retry schedule of [sendLog]: when the first three attempts meet a
    5xx answer or a failure of the network, what [sendLog] does on the wire
    is exactly four requests with exactly three waits between them, of one,
    two and three times [RETRY_DELAY_MS] = 1000 ms; it returns true if the
    fourth attempt meets a 2xx answer, and false, without a fifth attempt,
    if the fourth fails like the first three. *)
Theorem sendLog_retry_schedule :
  forall (net : nat -> LogEntry -> Reply) (self : HttpClient.t)
         (entry : LogEntry) (w : World),
    entry_stringifies entry = true ->
    transient (net (fetches w) entry) = true ->
    transient (net (S (fetches w)) entry) = true ->
    transient (net (S (S (fetches w))) entry) = true ->
    let fourth := net (S (S (S (fetches w)))) entry in
    delivered fourth = true \/ transient fourth = true ->
    exists w',
      HttpClient.sendLog net self entry w = (Returned (delivered fourth), w')
      /\ fetches w' = (fetches w + 4)%nat
      /\ steps (trace w')
         = steps (trace w)
           ++ [Request entry; Wait 1000; Request entry; Wait 2000;
               Request entry; Wait 3000; Request entry]
      /\ RETRY_DELAY_MS = 1000.
Proof.
  intros net self entry w Hs H1 H2 H3 fourth H4.
  unfold HttpClient.sendLog. unfold bind at 1.
  destruct (sendLog_preamble self entry w (or_intror Hs))
    as (w0 & E0 & F0 & _ & T0 & W0).
  rewrite E0. rewrite <- F0 in H1, H2, H3. subst fourth. rewrite <- F0 in *.
  change (Z.to_nat (MAX_RETRIES + 1)) with 4%nat.
  set (endpoint := String.append _ _).
  destruct (retry_loop_transient net 3 self endpoint entry 0 w0 Hs)
    as (w1 & E1 & F1 & _ & T1 & W1); [unfold MAX_RETRIES; lia|exact H1|].
  rewrite <- F1 in H2, H3, H4 |- *.
  destruct (retry_loop_transient net 2 self endpoint entry 1 w1 Hs)
    as (w2 & E2 & F2 & _ & T2 & W2); [unfold MAX_RETRIES; lia|exact H2|].
  rewrite <- F2 in H3, H4 |- *.
  destruct (retry_loop_transient net 1 self endpoint entry 2 w2 Hs)
    as (w3 & E3 & F3 & _ & T3 & W3); [unfold MAX_RETRIES; lia|exact H3|].
  rewrite <- F3 in H4 |- *.
  rewrite E1. change (0 + 1) with 1. rewrite E2. change (1 + 1) with 2.
  rewrite E3. change (2 + 1) with MAX_RETRIES.
  assert (Hend : exists w',
             HttpClient.retry_loop net 1 self endpoint entry MAX_RETRIES w3
               = (Returned (delivered (net (fetches w3) entry)), w')
             /\ fetches w' = S (fetches w3)
             /\ steps (trace w') = steps (trace w3) ++ [Request entry]).
  { destruct H4 as [Hd|Ht].
    - rewrite Hd.
      destruct (retry_loop_delivered net 0 self endpoint entry MAX_RETRIES w3 Hs)
        as (w' & E & F & _ & _ & W); [lia|exact Hd|]. eauto.
    - assert (Hd : delivered (net (fetches w3) entry) = false).
      { unfold delivered, transient in *.
        destruct (answer (net (fetches w3) entry)); [|reflexivity].
        apply andb_true_iff in Ht. apply andb_false_iff. lia. }
      rewrite Hd.
      destruct (retry_loop_exhausted net 0 self endpoint entry w3 Hs Ht)
        as (w' & E & F & _ & _ & W). eauto. }
  destruct Hend as (w' & E & F & W).
  exists w'. split; [exact E|].
  repeat split.
  - lia.
  - rewrite W, W3, W2, W1, W0, <- !app_assoc. reflexivity.
Qed.

Lemma sendLog_retry_schedule_witness :
  exists w',
    HttpClient.sendLog flaky (sampleClient false) (sample "/a") world0
      = (Returned true, w')
    /\ fetches w' = 4%nat
    /\ steps (trace w')
       = [Request (sample "/a"); Wait 1000; Request (sample "/a"); Wait 2000;
          Request (sample "/a"); Wait 3000; Request (sample "/a")]
    /\ RETRY_DELAY_MS = 1000.
Proof.
  apply (sendLog_retry_schedule flaky (sampleClient false) (sample "/a") world0);
    try reflexivity.
  left; reflexivity.
Defined.

(** C8. Permanent rejection: when the first attempt meets a 4xx answer,
    [sendLog] returns false after exactly one request, with no wait: the
    only time that passes is that of the request itself. *)
Theorem sendLog_rejected_once :
  forall (net : nat -> LogEntry -> Reply) (self : HttpClient.t)
         (entry : LogEntry) (w : World),
    entry_stringifies entry = true ->
    rejected_permanently (net (fetches w) entry) = true ->
    exists w',
      HttpClient.sendLog net self entry w = (Returned false, w')
      /\ fetches w' = S (fetches w)
      /\ steps (trace w') = steps (trace w) ++ [Request entry]
      /\ clock w' = clock w + duration (net (fetches w) entry).
Proof.
  intros net self entry w Hs Hr.
  unfold HttpClient.sendLog. unfold bind at 1.
  destruct (sendLog_preamble self entry w (or_intror Hs))
    as (w0 & E0 & F0 & K0 & T0 & W0).
  rewrite E0. rewrite <- F0 in Hr |- *.
  change (Z.to_nat (MAX_RETRIES + 1)) with 4%nat.
  destruct (retry_loop_rejected net 3 self
              (String.append (baseUrl (HttpClient.config self)) "/api/sdk/logs")
              entry 0 w0 Hs)
    as (w' & E & F & K & T & W); [unfold MAX_RETRIES; lia|exact Hr|].
  exists w'. split; [exact E|].
  repeat split; congruence.
Qed.

Lemma sendLog_rejected_once_witness :
  exists w',
    HttpClient.sendLog (always 404 20) (sampleClient true) (sample "/a") world0
      = (Returned false, w')
    /\ fetches w' = 1%nat
    /\ steps (trace w') = [Request (sample "/a")]
    /\ clock w' = 20.
Proof.
  apply (sendLog_rejected_once (always 404 20) (sampleClient true) (sample "/a") world0);
    reflexivity.
Defined.

(** C5. Transport totality fails in debug mode: on an entry that JSON
    cannot carry, [sendLog] and [sendBatch] of a client in debug mode end
    by throwing the [TypeError] of [JSON.stringify], whatever the remote
    end, before any attempt is made and without a diagnostic line. *)
Theorem sendLog_throws_in_debug_mode :
  forall (net : nat -> LogEntry -> Reply) (w : World),
    HttpClient.sendLog net (sampleClient true) unserializable w
      = (Threw StringifyError, w)
    /\ HttpClient.sendBatch net (sampleClient true) [unserializable] w
      = (Threw StringifyError, w).
Proof.
  intros net w. split; reflexivity.
Qed.

(* ================================================================== *)
(** * Properties of batch delivery *)

Section BatchFacts.

Import HttpClient.

Variable net : nat -> LogEntry -> Reply.

Lemma successes_cons : forall b results,
  successes (b :: results) = (if b then 1 else 0) + successes results.
Proof.
  intros b results. unfold successes.
  destruct b; cbn [filter List.length]; lia.
Qed.

(** The loop of [sendBatch] is the chain of the calls of [sendLog] on
    the entries in their order; on the wire, the requests of an entry all
    come before those of the next. *)
Lemma sendBatch_loop_in_order : forall self entries successCount w,
  debug self = false \/ forallb entry_stringifies entries = true ->
  exists results w' attempts,
    delivers_in_order net self entries w results w'
    /\ sendBatch_loop net self entries successCount w
         = (Returned (successCount + successes results), w')
    /\ List.length results = List.length entries
    /\ List.length attempts = List.length entries
    /\ fetched (trace w')
         = fetched (trace w)
           ++ flat_map (fun p : LogEntry * nat => repeat (fst p) (snd p))
                       (combine entries attempts).
Proof.
  intros self entries. induction entries as [|e rest IH]; intros acc w H.
  - exists [], w, []. simpl. rewrite app_nil_r.
    repeat split; auto using dio_done.
    unfold ret, successes; simpl. now rewrite Z.add_0_r.
  - assert (He : debug self = false \/ entry_stringifies e = true).
    { destruct H as [H|H]; [now left|right].
      simpl in H. now apply andb_true_iff in H. }
    assert (Hrest : debug self = false \/ forallb entry_stringifies rest = true).
    { destruct H as [H|H]; [now left|right].
      simpl in H. now apply andb_true_iff in H. }
    destruct (sendLog_returns net self e w He) as (b & w1 & n & E & _ & _ & T).
    destruct (IH (if b then acc + 1 else acc) w1 Hrest)
      as (results & w' & attempts & Hchain & Eloop & L1 & L2 & T').
    exists (b :: results), w', (n :: attempts).
    repeat split.
    + eapply dio_next; eauto.
    + cbn [sendBatch_loop]. unfold bind at 1. rewrite E, Eloop.
      rewrite successes_cons. do 2 f_equal. destruct b; lia.
    + simpl; congruence.
    + simpl; congruence.
    + simpl. rewrite T', T, <- app_assoc. reflexivity.
Qed.

(** [sendBatch] is never short of iterations either. *)
Lemma sendBatch_settles : forall self entries w,
  exists result, BatchFlusher.settled (fst (sendBatch net self entries w)) = Some result.
Proof.
  intros self entries w. unfold sendBatch.
  destruct (debug self && (0 <? Z.of_nat (List.length entries))) eqn:Hd.
  - apply andb_true_iff in Hd. destruct Hd as [Hd _].
    destruct (forallb entry_stringifies entries) eqn:Hs.
    + unfold bind at 1. unfold bind at 1.
      unfold JSON_stringify_all. rewrite Hs. unfold ret at 1.
      destruct (say_quiet [DebugSendingBatch entries] w) as (w0 & E0 & _).
      rewrite E0.
      destruct (sendBatch_loop_in_order self entries 0 w0 (or_intror Hs))
        as (results & w' & attempts & _ & E & _).
      rewrite E. simpl. eauto.
    + unfold bind, JSON_stringify_all, throw. rewrite Hs. simpl. eauto.
  - unfold bind at 1. unfold ret at 1.
    destruct (forallb entry_stringifies entries) eqn:Hs.
    + destruct (sendBatch_loop_in_order self entries 0 w (or_intror Hs))
        as (results & w' & attempts & _ & E & _).
      rewrite E. simpl. eauto.
    + apply andb_false_iff in Hd. destruct Hd as [Hd|Hd].
      * destruct (sendBatch_loop_in_order self entries 0 w (or_introl Hd))
          as (results & w' & attempts & _ & E & _).
        rewrite E. simpl. eauto.
      * destruct entries as [|e rest];
          [|cbn [List.length] in Hd; apply Z.ltb_ge in Hd; lia].
        simpl. eauto.
Qed.

(** In debug mode, a batch that does not serialise makes [sendBatch] throw
    before a single entry is handed to [sendLog]. *)
Lemma sendBatch_debug_throws : forall self entries w,
  debug self = true -> forallb entry_stringifies entries = false ->
  sendBatch net self entries w = (Threw StringifyError, w).
Proof.
  intros self entries w Hd Hs. unfold sendBatch.
  destruct entries as [|e rest]; [discriminate|].
  rewrite Hd. cbn [List.length].
  assert (C : (0 <? Z.of_nat (S (List.length rest))) = true)
    by (apply Z.ltb_lt; lia).
  rewrite C. unfold bind, JSON_stringify_all, throw. rewrite Hs. reflexivity.
Qed.

End BatchFacts.

(** X25. Batch delivery order and count where [sendBatch] gets to its
    loop: outside debug mode for every batch, and in debug mode for every
    batch that serialises, [sendBatch] hands the entries of the batch to
    [sendLog] in the order of the batch and one at a time, each call
    starting where the one before it ended, so that on the wire all the
    requests of an entry precede those of the next; and it returns the
    number of entries [sendLog] returned true for. *)
Theorem sendBatch_in_order_and_counts :
  forall (net : nat -> LogEntry -> Reply) (self : HttpClient.t)
         (entries : list LogEntry) (w : World),
    HttpClient.debug self = false \/ forallb entry_stringifies entries = true ->
    exists w0 results w' attempts,
      fetches w0 = fetches w /\ clock w0 = clock w
      /\ delivers_in_order net self entries w0 results w'
      /\ HttpClient.sendBatch net self entries w = (Returned (successes results), w')
      /\ List.length results = List.length entries
      /\ List.length attempts = List.length entries
      /\ fetched (trace w')
           = fetched (trace w)
             ++ flat_map (fun p : LogEntry * nat => repeat (fst p) (snd p))
                         (combine entries attempts).
Proof.
  intros net self entries w H. unfold HttpClient.sendBatch. unfold bind at 1.
  assert (Hpre : exists w0,
             (if HttpClient.debug self && (0 <? Z.of_nat (List.length entries))
              then bind (JSON_stringify_all entries)
                        (fun _ => say [DebugSendingBatch entries])
              else ret tt) w = (Returned tt, w0)
             /\ fetches w0 = fetches w /\ clock w0 = clock w
             /\ fetched (trace w0) = fetched (trace w)).
  { destruct (HttpClient.debug self && (0 <? Z.of_nat (List.length entries))) eqn:Hd.
    - apply andb_true_iff in Hd. destruct Hd as [Hd _].
      destruct H as [H|H]; [congruence|].
      unfold bind, JSON_stringify_all. rewrite H. unfold ret at 1.
      destruct (say_quiet [DebugSendingBatch entries] w) as (w0 & E0 & F0 & K0 & T0 & _).
      eauto.
    - exists w. auto. }
  destruct Hpre as (w0 & E0 & F0 & K0 & T0). rewrite E0.
  destruct (sendBatch_loop_in_order net self entries 0 w0 H)
    as (results & w' & attempts & Hchain & E & L1 & L2 & T).
  exists w0, results, w', attempts.
  repeat split; auto.
  congruence.
Qed.

Lemma sendBatch_in_order_and_counts_witness :
  exists w0 results w' attempts,
    fetches w0 = 0%nat /\ clock w0 = 0
    /\ delivers_in_order (always 200 20) (sampleClient false)
         [sample "/1"; sample "/2"] w0 results w'
    /\ HttpClient.sendBatch (always 200 20) (sampleClient false)
         [sample "/1"; sample "/2"] world0 = (Returned (successes results), w')
    /\ List.length results = 2%nat
    /\ List.length attempts = 2%nat
    /\ fetched (trace w')
         = flat_map (fun p : LogEntry * nat => repeat (fst p) (snd p))
                    (combine [sample "/1"; sample "/2"] attempts).
Proof.
  apply (sendBatch_in_order_and_counts (always 200 20) (sampleClient false)
           [sample "/1"; sample "/2"] world0).
  left; reflexivity.
Defined.

(* ================================================================== *)
(** * Properties of the flusher *)

Section FlusherFacts.

Import BatchFlusher.

Lemma flush_when_held : forall h,
  flushInProgress (self h) = true -> flush h = (h, None).
Proof. intros h H. unfold flush. now rewrite H. Qed.

Lemma checkAndFlush_when_held : forall h,
  flushInProgress (self h) = true -> checkAndFlush h = (h, None).
Proof. intros h H. unfold checkAndFlush. now rewrite H. Qed.

Lemma flush_resume_releases : forall entries result h,
  flushInProgress (self (flush_resume entries result h)) = false.
Proof. intros entries result h. reflexivity. Qed.

(** What a flush that takes the guard does before it first awaits. *)
Lemma flush_when_free : forall h,
  flushInProgress (self h) = false ->
  match BatchQueue.queue (queue h) with
  | [] =>
      snd (flush h) = None
      /\ flushInProgress (self (fst (flush h))) = false
      /\ sendBatchCalls (fst (flush h)) = sendBatchCalls h
      /\ inFlight (fst (flush h)) = inFlight h
  | entries =>
      snd (flush h) = Some entries
      /\ flushInProgress (self (fst (flush h))) = true
      /\ sendBatchCalls (fst (flush h)) = sendBatchCalls h ++ [entries]
      /\ inFlight (fst (flush h)) = inFlight h ++ [entries]
  end
  /\ BatchQueue.queue (queue (fst (flush h))) = [].
Proof.
  intros h H. unfold flush. rewrite H.
  unfold BatchQueue.getAndClear. cbv beta iota zeta.
  destruct (BatchQueue.queue (queue (with_self (set_flushInProgress true) h)))
    as [|e rest] eqn:Hq; simpl in Hq; rewrite Hq; simpl;
    repeat split; reflexivity.
Qed.

Lemma react_keeps_single_flight : forall h t,
  single_flight h -> single_flight (react h t).
Proof.
  intros h t Hinv. destruct t; simpl.
  - exact Hinv.
  - destruct (intervalHandle (self h)); [|exact Hinv].
    destruct Hinv as [[Hf Hn]|[Hf Hn]].
    + unfold checkAndFlush. rewrite Hf.
      destruct (BatchQueue.size (queue h) >=? batchSize (self h));
        [|left; auto].
      pose proof (flush_when_free h Hf) as [Hcase _].
      destruct (BatchQueue.queue (queue h)) as [|e rest].
      * destruct Hcase as (_ & F & _ & I). left. split; congruence.
      * destruct Hcase as (_ & F & _ & I). right. split; [exact F|].
        rewrite I, Hn. simpl. eauto.
    + rewrite checkAndFlush_when_held by exact Hf. right; auto.
  - unfold manualFlush. destruct Hinv as [[Hf Hn]|[Hf Hn]].
    + pose proof (flush_when_free h Hf) as [Hcase _].
      destruct (BatchQueue.queue (queue h)) as [|e rest].
      * destruct Hcase as (_ & F & _ & I). left. split; congruence.
      * destruct Hcase as (_ & F & _ & I). right. split; [exact F|].
        rewrite I, Hn. simpl. eauto.
    + rewrite flush_when_held by exact Hf. right; auto.
  - unfold settle. destruct Hinv as [[Hf Hn]|[Hf [entries Hn]]]; rewrite Hn.
    + left; auto.
    + left. split; [apply flush_resume_releases|].
      destruct result as [n|e]; simpl;
        [destruct (n =? Z.of_nat (List.length entries))|]; reflexivity.
  - unfold start. destruct (isRunning (self h)); exact Hinv.
  - exact Hinv.
  - exact Hinv.
Qed.

(** Whatever happens to a flusher, at most one of its flushes is under
    way at any time, and its guard is taken exactly while one is. *)
Lemma run_keeps_single_flight : forall ts h,
  single_flight h -> single_flight (run ts h).
Proof.
  induction ts as [|t ts IH]; intros h Hinv; simpl; auto.
  apply IH. now apply react_keeps_single_flight.
Qed.

Lemma fresh_single_flight : forall client lg size,
  single_flight (fresh client lg size).
Proof. intros. left. split; reflexivity. Qed.

(** A flush that takes the guard and is left to finish, against any
    remote end, has given the guard back when it is over. *)
Lemma flush_and_wait_releases : forall net h w,
  flushInProgress (self h) = false ->
  flushInProgress (self (fst (flush_and_wait net h w))) = false.
Proof.
  intros net h w Hf. unfold flush_and_wait.
  pose proof (flush_when_free h Hf) as [Hcase _].
  destruct (flush h) as [h1 awaited]. simpl in Hcase.
  destruct (BatchQueue.queue (queue h)) as [|e rest].
  - destruct Hcase as (-> & F & _). exact F.
  - destruct Hcase as (-> & F & _ & I).
    destruct (sendBatch_settles net (httpClient (self h1)) (e :: rest) w)
      as (result & Hres).
    destruct (HttpClient.sendBatch net (httpClient (self h1)) (e :: rest) w)
      as [o w'].
    simpl in Hres. rewrite Hres. simpl.
    unfold settle. rewrite I.
    destruct (inFlight h) as [|older others]; reflexivity.
Qed.

(** Entries put in an open queue wait there: no trigger but a tick or a
    manual flush makes a flusher look at its queue. *)
Lemma enqueue_all : forall entries h,
  BatchQueue.isShuttingDown (queue h) = false ->
  run (map Enqueue entries) h
    = with_queue {| BatchQueue.queue := BatchQueue.queue (queue h) ++ entries;
                    BatchQueue.isShuttingDown := false |} h.
Proof.
  induction entries as [|e rest IH]; intros h Hopen.
  - simpl. rewrite app_nil_r. destruct h as [s [items flag] c i o].
    simpl in *. subst flag. reflexivity.
  - simpl. rewrite IH.
    + unfold with_queue, BatchQueue.add; simpl. rewrite Hopen; simpl.
      now rewrite <- app_assoc.
    + unfold BatchQueue.add; simpl. rewrite Hopen; reflexivity.
Qed.

End FlusherFacts.

(** C1. Flush mutual exclusion: while the guard [flushInProgress] is
    taken, a flush triggered by the timer's size check or by [manualFlush]
    does nothing: the queue is not drained and no call of [sendBatch] is
    made, the whole state is as it was.  And a flush that takes the guard
    gives it back when it is over, whatever the delivery came to: when the
    flush is left to finish against any remote end, and at its resumption
    on any result of [sendBatch], fulfilled with any count or rejected. *)
Theorem flush_guard_exclusive :
  forall (net : nat -> LogEntry -> Reply) (h : BatchFlusher.heap) (w : World),
    (BatchFlusher.flushInProgress (BatchFlusher.self h) = true ->
       BatchFlusher.checkAndFlush h = (h, None)
       /\ BatchFlusher.manualFlush h = (h, None)
       /\ BatchFlusher.react h BatchFlusher.Tick = h
       /\ BatchFlusher.react h BatchFlusher.ManualFlush = h)
    /\ (BatchFlusher.flushInProgress (BatchFlusher.self h) = false ->
          BatchFlusher.flushInProgress
            (BatchFlusher.self (fst (BatchFlusher.flush_and_wait net h w))) = false)
    /\ (forall entries result later,
          BatchFlusher.flushInProgress
            (BatchFlusher.self (BatchFlusher.flush_resume entries result later)) = false).
Proof.
  intros net h w. split; [|split].
  - intros Hheld.
    pose proof (checkAndFlush_when_held h Hheld) as Hc.
    pose proof (flush_when_held h Hheld) as Hm.
    repeat split; auto.
    + simpl. destruct (BatchFlusher.intervalHandle (BatchFlusher.self h)); auto.
      now rewrite Hc.
    + simpl. unfold BatchFlusher.manualFlush. now rewrite Hm.
  - apply flush_and_wait_releases.
  - apply flush_resume_releases.
Qed.

Lemma flush_guard_exclusive_witness :
  (BatchFlusher.checkAndFlush busyFlusher = (busyFlusher, None)
   /\ BatchFlusher.manualFlush busyFlusher = (busyFlusher, None)
   /\ BatchFlusher.react busyFlusher BatchFlusher.Tick = busyFlusher
   /\ BatchFlusher.react busyFlusher BatchFlusher.ManualFlush = busyFlusher)
  /\ BatchFlusher.flushInProgress
       (BatchFlusher.self
          (fst (BatchFlusher.flush_and_wait (always 503 20) idleFlusher world0)))
     = false.
Proof.
  split.
  - apply (proj1 (flush_guard_exclusive silent busyFlusher world0)). reflexivity.
  - apply (proj1 (proj2 (flush_guard_exclusive (always 503 20) idleFlusher world0))).
    reflexivity.
Defined.

(** C3, the claim as stated, at five entries and a threshold of five: the
    enqueues alone, with no tick of the timer, do not leave the queue empty
    with one call of [sendBatch] made; the five entries are still there. *)
Lemma enqueue_to_threshold_does_not_flush :
  let filled :=
    BatchFlusher.run (map BatchFlusher.Enqueue fiveEntries)
      (BatchFlusher.start
         (BatchFlusher.fresh (sampleClient false) (InternalLogger.mk false) 5)) in
  BatchQueue.size (BatchFlusher.queue filled) = 5
  /\ ~ (BatchQueue.size (BatchFlusher.queue filled) = 0
        /\ BatchFlusher.sendBatchCalls filled = [fiveEntries]).
Proof.
  split; [reflexivity|].
  intros [Hsize _]. vm_compute in Hsize. discriminate.
Qed.

(** C3, amended. Threshold-triggered flush at the timer tick: enqueue calls
    trigger no flush by themselves; when they have brought the size of the
    queue to the threshold or beyond and no tick has come, the queue holds
    all the entries and no call of [sendBatch] has been made.  The size
    check of the first tick then triggers the flush, which leaves the queue
    empty and makes exactly one call of [sendBatch], on all the entries in
    their order. *)
Theorem threshold_flush_at_next_tick :
  forall (client : HttpClient.t) (lg : InternalLogger.t) (threshold : Z)
         (entries : list LogEntry),
    entries <> [] ->
    threshold <= Z.of_nat (List.length entries) ->
    let filled :=
      BatchFlusher.run (map BatchFlusher.Enqueue entries)
        (BatchFlusher.start (BatchFlusher.fresh client lg threshold)) in
    let ticked := BatchFlusher.react filled BatchFlusher.Tick in
    (BatchQueue.queue (BatchFlusher.queue filled) = entries
     /\ BatchFlusher.sendBatchCalls filled = []
     /\ BatchFlusher.flushInProgress (BatchFlusher.self filled) = false)
    /\ (BatchQueue.queue (BatchFlusher.queue ticked) = []
        /\ BatchFlusher.sendBatchCalls ticked = [entries]
        /\ BatchFlusher.inFlight ticked = [entries]
        /\ BatchFlusher.flushInProgress (BatchFlusher.self ticked) = true).
Proof.
  intros client lg threshold entries Hne Hsize filled ticked.
  subst ticked filled.
  rewrite enqueue_all by reflexivity.
  split; [repeat split; reflexivity|].
  cbn [BatchFlusher.react]. simpl BatchFlusher.intervalHandle. cbv iota.
  unfold BatchFlusher.checkAndFlush. simpl BatchFlusher.flushInProgress. cbv iota.
  cbv zeta. unfold BatchQueue.size. simpl BatchQueue.queue. simpl BatchFlusher.batchSize.
  assert (C : (Z.of_nat (List.length entries) >=? threshold) = true) by lia.
  rewrite C.
  match goal with
  | |- context [BatchFlusher.flush ?h] =>
      pose proof (flush_when_free h eq_refl) as [Hcase Hq]
  end.
  simpl BatchQueue.queue in Hcase.
  destruct entries as [|e rest]; [congruence|].
  destruct Hcase as (_ & F & Hcalls & Hfl).
  repeat split; assumption.
Qed.

Lemma threshold_flush_at_next_tick_witness :
  let filled :=
    BatchFlusher.run (map BatchFlusher.Enqueue fiveEntries)
      (BatchFlusher.start
         (BatchFlusher.fresh (sampleClient false) (InternalLogger.mk false) 5)) in
  let ticked := BatchFlusher.react filled BatchFlusher.Tick in
  (BatchQueue.queue (BatchFlusher.queue filled) = fiveEntries
   /\ BatchFlusher.sendBatchCalls filled = []
   /\ BatchFlusher.flushInProgress (BatchFlusher.self filled) = false)
  /\ (BatchQueue.queue (BatchFlusher.queue ticked) = []
      /\ BatchFlusher.sendBatchCalls ticked = [fiveEntries]
      /\ BatchFlusher.inFlight ticked = [fiveEntries]
      /\ BatchFlusher.flushInProgress (BatchFlusher.self ticked) = true).
Proof.
  apply (threshold_flush_at_next_tick (sampleClient false) (InternalLogger.mk false)
           5 fiveEntries).
  - discriminate.
  - vm_compute. discriminate.
Defined.

(* ================================================================== *)
(** * Properties of the SDK *)

Section SDKFacts.

Import LogSentinelSDK.

(** The loader returns nothing exactly on a missing or invalid
    configuration. *)
Lemma loadEnvironmentConfig_none : forall trim URL_parses parseInt dropTrailingSlash env,
  loadEnvironmentConfig trim URL_parses parseInt dropTrailingSlash env = None
  <-> misconfigured trim URL_parses env = true.
Proof.
  intros trim URL_parses parseInt dropTrailingSlash env.
  unfold loadEnvironmentConfig, misconfigured.
  destruct (blank trim (LOGSENTINEL_API_KEY env)) eqn:Hk; simpl; [tauto|].
  destruct (blank trim (LOGSENTINEL_BASE_URL env)) eqn:Hu; simpl; [tauto|].
  destruct (LOGSENTINEL_API_KEY env) as [k|]; [|discriminate].
  destruct (LOGSENTINEL_BASE_URL env) as [u|]; [|discriminate].
  destruct (URL_parses u); simpl; split; intros H; try discriminate; reflexivity.
Qed.

Lemma log_keeps : forall m msg s,
  queue (log m msg s) = queue s /\ flusher (log m msg s) = flusher s.
Proof. intros m msg s. unfold log. destruct (logger s); split; reflexivity. Qed.

Lemma settle_keeps : forall result h,
  BatchFlusher.queue (BatchFlusher.settle result h) = BatchFlusher.queue h
  /\ BatchFlusher.intervalHandle (BatchFlusher.self (BatchFlusher.settle result h))
     = BatchFlusher.intervalHandle (BatchFlusher.self h)
  /\ BatchFlusher.isRunning (BatchFlusher.self (BatchFlusher.settle result h))
     = BatchFlusher.isRunning (BatchFlusher.self h).
Proof.
  intros result h. unfold BatchFlusher.settle.
  destruct (BatchFlusher.inFlight h) as [|entries rest]; [auto|].
  destruct result as [n|e]; simpl;
    [destruct (n =? Z.of_nat (List.length entries))|]; auto.
Qed.

Lemma flush_keeps : forall h,
  let h' := fst (BatchFlusher.flush h) in
  BatchQueue.isShuttingDown (BatchFlusher.queue h')
    = BatchQueue.isShuttingDown (BatchFlusher.queue h)
  /\ BatchFlusher.intervalHandle (BatchFlusher.self h')
     = BatchFlusher.intervalHandle (BatchFlusher.self h)
  /\ BatchFlusher.isRunning (BatchFlusher.self h')
     = BatchFlusher.isRunning (BatchFlusher.self h)
  /\ BatchQueue.size (BatchFlusher.queue h')
     = if BatchFlusher.flushInProgress (BatchFlusher.self h)
       then BatchQueue.size (BatchFlusher.queue h) else 0.
Proof.
  intros h h'. subst h'. unfold BatchFlusher.flush.
  destruct (BatchFlusher.flushInProgress (BatchFlusher.self h)); [auto|].
  unfold BatchQueue.getAndClear. cbv beta iota zeta.
  simpl BatchQueue.queue.
  destruct (BatchQueue.queue (BatchFlusher.queue h)); simpl; auto.
Qed.

(** The race changes nothing of the queue or the timer, and is over when
    the grace period is. *)
Lemma race_keeps : forall net h awaited w,
  let r := race net h awaited w in
  BatchFlusher.queue (fst r) = BatchFlusher.queue h
  /\ BatchFlusher.intervalHandle (BatchFlusher.self (fst r))
     = BatchFlusher.intervalHandle (BatchFlusher.self h)
  /\ BatchFlusher.isRunning (BatchFlusher.self (fst r))
     = BatchFlusher.isRunning (BatchFlusher.self h)
  /\ snd r <= SHUTDOWN_GRACE_PERIOD_MS.
Proof.
  intros net h awaited w r. subst r. unfold race.
  destruct awaited as [entries|];
    [|simpl; repeat split; unfold SHUTDOWN_GRACE_PERIOD_MS; lia].
  destruct (HttpClient.sendBatch net _ entries w) as [o w'].
  destruct (BatchFlusher.settled o) as [result|];
    [|simpl; repeat split; lia].
  destruct (clock w' - clock w <? SHUTDOWN_GRACE_PERIOD_MS) eqn:Ht;
    [|simpl; repeat split; lia].
  destruct (settle_keeps result h) as (K1 & K2 & K3).
  simpl. repeat split; auto. lia.
Qed.

(** What [shutdown] reports is the size of the queue once its own final
    flush has started: nothing if that flush took the guard, since it
    drained the queue before the race began, and the whole queue if a
    flush was under way.  It never keeps the caller longer than the grace
    period, stops the timer and closes the queue. *)
Lemma shutdown_report : forall net s w q f,
  isEnabled s = true -> queue s = Some q -> flusher s = Some f ->
  let r := shutdown net s w in
  remaining r = Some (if BatchFlusher.flushInProgress f
                      then BatchQueue.size q else 0)
  /\ waited r <= SHUTDOWN_GRACE_PERIOD_MS
  /\ (exists q', queue (after r) = Some q'
                 /\ BatchQueue.isShuttingDown q' = true)
  /\ (exists f', flusher (after r) = Some f'
                 /\ BatchFlusher.intervalHandle f' = None
                 /\ BatchFlusher.isRunning f' = false).
Proof.
  intros net s w q f He Hq Hf r. subst r.
  unfold shutdown. rewrite He, Hq, Hf. cbv zeta.
  set (h2 := BatchFlusher.stop _).
  unfold BatchFlusher.manualFlush.
  pose proof (flush_keeps h2) as (K1 & K2 & K3 & K4).
  destruct (BatchFlusher.flush h2) as [h3 awaited]. simpl fst in *.
  pose proof (race_keeps net h3 awaited w) as (R1 & R2 & R3 & R4).
  destruct (race net h3 awaited w) as [h4 took]. simpl fst in *; simpl snd in *.
  cbn [remaining waited after].
  split; [|split; [exact R4|]].
  - rewrite R1, K4. subst h2. reflexivity.
  - assert (Hs : queue (store h4 s) = Some (BatchFlusher.queue h4)
                 /\ flusher (store h4 s) = Some (BatchFlusher.self h4))
      by (split; reflexivity).
    destruct Hs as [Hs1 Hs2].
    split.
    + exists (BatchFlusher.queue h4). split.
      * destruct (BatchQueue.size (BatchFlusher.queue h4) >? 0);
          rewrite (proj1 (log_keeps _ _ _)); exact Hs1.
      * rewrite R1, K1. subst h2. reflexivity.
    + exists (BatchFlusher.self h4). split; [|split].
      * destruct (BatchQueue.size (BatchFlusher.queue h4) >? 0);
          rewrite (proj2 (log_keeps _ _ _)); exact Hs2.
      * rewrite R2, K2. subst h2. reflexivity.
      * rewrite R3, K3. subst h2. reflexivity.
Qed.

End SDKFacts.

(** C4. The unsent-record report of [shutdown] is wrong for a delivery
    that stalls: with two entries captured and a remote end that never
    answers, [shutdown] returns when the grace period of 5000 ms is over
    and leaves the final flush in flight, but the value it reports as
    remaining is 0, not 2, and it announces that all logs were flushed;
    the flush it started had emptied the queue before the race began, and
    the delivery it abandons delivers nothing. *)
Theorem shutdown_reports_zero_for_stalled_flush :
  forall dbg : bool,
    let r := LogSentinelSDK.shutdown silent (sdkHoldingTwo dbg) world0 in
    LogSentinelSDK.getQueueSize (sdkHoldingTwo dbg) = 2
    /\ LogSentinelSDK.remaining r = Some 0
    /\ LogSentinelSDK.waited r = SHUTDOWN_GRACE_PERIOD_MS
    /\ LogSentinelSDK.inFlight (LogSentinelSDK.after r) = [[sample "/1"; sample "/2"]]
    /\ LogSentinelSDK.getQueueSize (LogSentinelSDK.after r) = 0
    /\ last (LogSentinelSDK.console
               (LogSentinelSDK.after
                  (LogSentinelSDK.shutdown silent (sdkHoldingTwo true) world0)))
            WarnDisabledNoConfig
       = Line LSuccess MsgAllFlushed
    /\ fst (HttpClient.sendBatch silent (sampleClient dbg)
              [sample "/1"; sample "/2"] world0) = Returned 0.
Proof.
  intros dbg; destruct dbg; vm_compute; repeat split; congruence.
Qed.

(** C10. The size query answers without a queue: on an SDK that was never
    installed, and on one whose [install] disabled itself because the
    configuration in the environment is missing or invalid, there is no
    queue and [getQueueSize] returns 0. *)
Theorem getQueueSize_without_queue :
  forall (trim : string -> string) (URL_parses : string -> bool)
         (parseInt : string -> option Z) (dropTrailingSlash : string -> string)
         (env : ProcessEnv) (app : INestApplication)
         (opts : option LogSentinelOptions),
    misconfigured trim URL_parses env = true ->
    let never := LogSentinelSDK.new opts in
    let disabled :=
      LogSentinelSDK.install
        (loadEnvironmentConfig trim URL_parses parseInt dropTrailingSlash env)
        app never in
    LogSentinelSDK.getQueueSize never = 0
    /\ LogSentinelSDK.queue disabled = None
    /\ LogSentinelSDK.isEnabled disabled = false
    /\ LogSentinelSDK.getQueueSize disabled = 0.
Proof.
  intros trim URL_parses parseInt dropTrailingSlash env app opts Hbad never disabled.
  subst disabled never.
  apply (loadEnvironmentConfig_none trim URL_parses parseInt dropTrailingSlash) in Hbad.
  rewrite Hbad. repeat split; reflexivity.
Qed.

Lemma getQueueSize_without_queue_witness :
  LogSentinelSDK.getQueueSize (LogSentinelSDK.new None) = 0
  /\ LogSentinelSDK.queue
       (LogSentinelSDK.install
          (loadEnvironmentConfig (fun s => s) (fun _ => true) (fun _ => None)
                                 (fun s => s) emptyEnv)
          cooperativeApp (LogSentinelSDK.new None)) = None
  /\ LogSentinelSDK.isEnabled
       (LogSentinelSDK.install
          (loadEnvironmentConfig (fun s => s) (fun _ => true) (fun _ => None)
                                 (fun s => s) emptyEnv)
          cooperativeApp (LogSentinelSDK.new None)) = false
  /\ LogSentinelSDK.getQueueSize
       (LogSentinelSDK.install
          (loadEnvironmentConfig (fun s => s) (fun _ => true) (fun _ => None)
                                 (fun s => s) emptyEnv)
          cooperativeApp (LogSentinelSDK.new None)) = 0.
Proof.
  apply (getQueueSize_without_queue (fun s => s) (fun _ => true) (fun _ => None)
           (fun s => s) emptyEnv cooperativeApp None).
  reflexivity.
Defined.

(* ================================================================== *)
(** * Further properties of the flusher and its queue *)

Section FlusherMore.

Import BatchFlusher.

Lemma flush_moves_queue : forall h,
  List.concat (sendBatchCalls (fst (flush h))) ++ BatchQueue.queue (queue (fst (flush h)))
    = List.concat (sendBatchCalls h) ++ BatchQueue.queue (queue h)
  /\ BatchQueue.isShuttingDown (queue (fst (flush h)))
     = BatchQueue.isShuttingDown (queue h).
Proof.
  intros h. destruct (flushInProgress (self h)) eqn:Hf.
  - rewrite flush_when_held by exact Hf. auto.
  - pose proof (flush_when_free h Hf) as [Hcase Hq].
    split.
    + rewrite Hq, app_nil_r.
      destruct (BatchQueue.queue (queue h)) as [|e rest].
      * destruct Hcase as (_ & _ & -> & _). now rewrite app_nil_r.
      * destruct Hcase as (_ & _ & -> & _).
        rewrite List.concat_app. simpl. now rewrite app_nil_r.
    + unfold flush. rewrite Hf. unfold BatchQueue.getAndClear.
      cbv beta iota zeta. simpl BatchQueue.queue.
      destruct (BatchQueue.queue (queue h)); reflexivity.
Qed.

Lemma settle_keeps_records : forall result h,
  sendBatchCalls (settle result h) = sendBatchCalls h
  /\ queue (settle result h) = queue h.
Proof.
  intros result h. unfold settle.
  destruct (inFlight h) as [|entries rest]; [auto|].
  destruct result as [n|e]; simpl;
    [destruct (n =? Z.of_nat (List.length entries))|]; auto.
Qed.

Lemma react_conserves : forall h t,
  List.concat (sendBatchCalls (react h t)) ++ BatchQueue.queue (queue (react h t))
    = List.concat (sendBatchCalls h) ++ BatchQueue.queue (queue h)
      ++ accepted (BatchQueue.isShuttingDown (queue h)) [t]
  /\ BatchQueue.isShuttingDown (queue (react h t))
     = match t with
       | BeginShutdown => true
       | _ => BatchQueue.isShuttingDown (queue h)
       end.
Proof.
  intros h t. destruct t; simpl.
  - unfold BatchQueue.add.
    destruct (BatchQueue.isShuttingDown (queue h)) eqn:Hs; simpl.
    + rewrite app_nil_r. auto.
    + auto.
  - rewrite app_nil_r. destruct (intervalHandle (self h)); [|auto].
    unfold checkAndFlush. destruct (flushInProgress (self h)); [auto|].
    destruct (BatchQueue.size (queue h) >=? batchSize (self h)); [|auto].
    apply flush_moves_queue.
  - rewrite app_nil_r. apply flush_moves_queue.
  - rewrite app_nil_r. destruct (settle_keeps_records result h) as [-> ->]. auto.
  - rewrite app_nil_r. unfold start. destruct (isRunning (self h)); auto.
  - rewrite app_nil_r. auto.
  - rewrite app_nil_r. auto.
Qed.

Lemma accepted_step : forall closed t ts,
  accepted closed (t :: ts)
    = accepted closed [t]
      ++ accepted (match t with BeginShutdown => true | _ => closed end) ts.
Proof.
  intros closed t ts. destruct t; simpl; try reflexivity.
  destruct closed; reflexivity.
Qed.

Lemma run_conserves : forall ts h,
  List.concat (sendBatchCalls (run ts h)) ++ BatchQueue.queue (queue (run ts h))
    = List.concat (sendBatchCalls h) ++ BatchQueue.queue (queue h)
      ++ accepted (BatchQueue.isShuttingDown (queue h)) ts.
Proof.
  induction ts as [|t ts IH]; intros h.
  - simpl. now rewrite app_nil_r.
  - cbn [run fold_left]. fold (run ts (react h t)).
    rewrite IH. destruct (react_conserves h t) as [E ->].
    rewrite (accepted_step _ t ts), app_assoc, E, <- !app_assoc. reflexivity.
Qed.

Lemma react_calls_nonempty : forall h t,
  Forall (fun batch => batch <> []) (sendBatchCalls h) ->
  Forall (fun batch => batch <> []) (sendBatchCalls (react h t)).
Proof.
  assert (Hflush : forall h,
             Forall (fun batch => batch <> []) (sendBatchCalls h) ->
             Forall (fun batch : list LogEntry => batch <> [])
                    (sendBatchCalls (fst (flush h)))).
  { intros h H. destruct (flushInProgress (self h)) eqn:Hf.
    - rewrite flush_when_held by exact Hf. exact H.
    - pose proof (flush_when_free h Hf) as [Hcase _].
      destruct (BatchQueue.queue (queue h)) as [|e rest].
      + destruct Hcase as (_ & _ & -> & _). exact H.
      + destruct Hcase as (_ & _ & -> & _).
        apply Forall_app. split; [exact H|]. constructor; [discriminate|constructor]. }
  intros h t H. destruct t; simpl; auto.
  - destruct (intervalHandle (self h)); [|exact H].
    unfold checkAndFlush. destruct (flushInProgress (self h)); [exact H|].
    destruct (BatchQueue.size (queue h) >=? batchSize (self h)); auto.
  - rewrite (proj1 (settle_keeps_records result h)). exact H.
  - unfold start. destruct (isRunning (self h)); exact H.
Qed.

Lemma run_calls_nonempty : forall ts h,
  Forall (fun batch => batch <> []) (sendBatchCalls h) ->
  Forall (fun batch => batch <> []) (sendBatchCalls (run ts h)).
Proof.
  induction ts as [|t ts IH]; intros h H; simpl; auto.
  apply IH. now apply react_calls_nonempty.
Qed.

Lemma tick_below_threshold : forall h,
  BatchQueue.size (queue h) < batchSize (self h) -> react h Tick = h.
Proof.
  intros h Hlow. simpl. destruct (intervalHandle (self h)); [|reflexivity].
  unfold checkAndFlush. destruct (flushInProgress (self h)); [reflexivity|].
  assert (C : (BatchQueue.size (queue h) >=? batchSize (self h)) = false) by lia.
  now rewrite C.
Qed.

End FlusherMore.

(** X1. Single flight: whatever sequence of enqueues, timer ticks, manual
    flushes, settlings, starts, stops and shutdowns a freshly built flusher
    goes through, at most one call of [sendBatch] is pending at any time,
    and [flushInProgress] is set exactly while one is. *)
Theorem flusher_single_flight :
  forall (ts : list BatchFlusher.trigger) (client : HttpClient.t)
         (lg : InternalLogger.t) (size : Z),
    let h := BatchFlusher.run ts (BatchFlusher.fresh client lg size) in
    (List.length (BatchFlusher.inFlight h) <= 1)%nat
    /\ BatchFlusher.flushInProgress (BatchFlusher.self h)
       = negb (Nat.eqb (List.length (BatchFlusher.inFlight h)) 0).
Proof.
  intros ts client lg size h.
  assert (H : single_flight h)
    by (apply run_keeps_single_flight, fresh_single_flight).
  destruct H as [[Hf Hn]|[Hf [entries Hn]]]; rewrite Hf, Hn; simpl; auto.
Qed.

(** X2. Conservation of records: whatever a freshly built flusher goes
    through, the batches it has handed to [sendBatch], one after the other,
    followed by what its queue still holds, are exactly the entries that
    were enqueued while the queue was open, in the order they came; so no
    accepted entry is lost by the queue or handed over twice.  And
    [sendBatch] is never called on an empty batch. *)
Theorem flusher_conserves_records :
  forall (ts : list BatchFlusher.trigger) (client : HttpClient.t)
         (lg : InternalLogger.t) (size : Z),
    let h := BatchFlusher.run ts (BatchFlusher.fresh client lg size) in
    List.concat (BatchFlusher.sendBatchCalls h)
      ++ BatchQueue.queue (BatchFlusher.queue h)
      = accepted false ts
    /\ Forall (fun batch => batch <> []) (BatchFlusher.sendBatchCalls h).
Proof.
  intros ts client lg size h. subst h. split.
  - rewrite run_conserves. reflexivity.
  - apply run_calls_nonempty. constructor.
Qed.

(** X3. The timer never sends a partial batch: while the queue holds fewer
    entries than the threshold, any number of ticks leaves the flusher and
    its queue exactly as they are; such entries wait for more entries or
    for a manual flush. *)
Theorem ticks_below_threshold_do_nothing :
  forall (h : BatchFlusher.heap) (n : nat),
    BatchQueue.size (BatchFlusher.queue h) < BatchFlusher.batchSize (BatchFlusher.self h) ->
    BatchFlusher.run (repeat BatchFlusher.Tick n) h = h.
Proof.
  intros h n Hlow. induction n as [|n IH]; [reflexivity|].
  cbn [repeat BatchFlusher.run fold_left].
  rewrite tick_below_threshold by exact Hlow. exact IH.
Qed.

Lemma ticks_below_threshold_do_nothing_witness :
  BatchFlusher.run (repeat BatchFlusher.Tick 3)
    (BatchFlusher.run
       [BatchFlusher.Start; BatchFlusher.Enqueue (sample "/1")]
       (BatchFlusher.fresh (sampleClient false) (InternalLogger.mk false) 5))
  = BatchFlusher.run
      [BatchFlusher.Start; BatchFlusher.Enqueue (sample "/1")]
      (BatchFlusher.fresh (sampleClient false) (InternalLogger.mk false) 5).
Proof.
  apply (ticks_below_threshold_do_nothing
           (BatchFlusher.run
              [BatchFlusher.Start; BatchFlusher.Enqueue (sample "/1")]
              (BatchFlusher.fresh (sampleClient false) (InternalLogger.mk false) 5))
           3).
  reflexivity.
Defined.

(** X4. Drained entries are never put back: a flush that takes the guard
    and runs to its end, against any remote end, leaves the queue empty and
    has made one call of [sendBatch] on all the entries the queue held (none
    if it held none), whether they were delivered or not. *)
Theorem flush_never_requeues :
  forall (net : nat -> LogEntry -> Reply) (h : BatchFlusher.heap) (w : World),
    BatchFlusher.flushInProgress (BatchFlusher.self h) = false ->
    let h' := fst (BatchFlusher.flush_and_wait net h w) in
    BatchQueue.queue (BatchFlusher.queue h') = []
    /\ BatchFlusher.sendBatchCalls h'
       = BatchFlusher.sendBatchCalls h
         ++ match BatchQueue.queue (BatchFlusher.queue h) with
            | [] => []
            | entries => [entries]
            end.
Proof.
  intros net h w Hf h'. subst h'. unfold BatchFlusher.flush_and_wait.
  pose proof (flush_when_free h Hf) as [Hcase Hq].
  destruct (BatchFlusher.flush h) as [h1 awaited]. simpl in Hcase, Hq.
  destruct (BatchQueue.queue (BatchFlusher.queue h)) as [|e rest].
  - destruct Hcase as (-> & _ & Hc & _). simpl.
    rewrite Hc, app_nil_r. auto.
  - destruct Hcase as (-> & _ & Hc & _).
    destruct (HttpClient.sendBatch net _ (e :: rest) w) as [o w'].
    destruct (BatchFlusher.settled o) as [result|]; cbn [fst].
    + destruct (settle_keeps_records result h1) as [E1 E2].
      rewrite E1, E2. auto.
    + auto.
Qed.

Lemma flush_never_requeues_witness :
  let h' := fst (BatchFlusher.flush_and_wait (always 503 20) idleFlusher world0) in
  BatchQueue.queue (BatchFlusher.queue h') = []
  /\ BatchFlusher.sendBatchCalls h'
     = BatchFlusher.sendBatchCalls idleFlusher
       ++ match BatchQueue.queue (BatchFlusher.queue idleFlusher) with
          | [] => []
          | entries => [entries]
          end.
Proof.
  apply (flush_never_requeues (always 503 20) idleFlusher world0). reflexivity.
Defined.

(* ================================================================== *)
(** * Further properties of the transport *)

Section TransportMore.

Import HttpClient.

Variable net : nat -> LogEntry -> Reply.

Lemma printed_app : forall xs ys, printed (xs ++ ys) = printed xs ++ printed ys.
Proof.
  induction xs as [|x xs IH]; intros ys; simpl; auto.
  destruct x; simpl; rewrite IH; reflexivity.
Qed.

Lemma sends_only_app : forall endpoint authorization body xs ys,
  sends_only endpoint authorization body xs ->
  sends_only endpoint authorization body ys ->
  sends_only endpoint authorization body (xs ++ ys).
Proof. intros. apply Forall_app. split; assumption. Qed.

Lemma sends_only_console : forall endpoint authorization body lines,
  sends_only endpoint authorization body (map Console lines).
Proof.
  intros endpoint authorization body lines. unfold sends_only.
  induction lines; simpl; constructor; auto.
Qed.

Lemma silent_logger : forall lg lvl msg,
  InternalLogger.debugEnabled lg = false -> InternalLogger.print lg lvl msg = [].
Proof. intros lg lvl msg H. unfold InternalLogger.print. now rewrite H. Qed.

(** What one attempt adds to the trace: at most the one request, and
    lines of the logger. *)
Lemma attempt_once_trace : forall self endpoint e k w,
  exists evs,
    trace (snd (attempt_once net self endpoint e k w)) = trace w ++ evs
    /\ sends_only endpoint (String.append "Bearer " (apiKey (config self))) e evs
    /\ (InternalLogger.debugEnabled (logger self) = false -> printed evs = []).
Proof.
  intros self endpoint e k w.
  unfold attempt_once, try_catch, bind, JSON_stringify, fetch, ret, throw,
    say, observe, ok, elapse,
    InternalLogger.debug, InternalLogger.warn, InternalLogger.error.
  destruct (entry_stringifies e);
    [destruct (answer (net (fetches w) e)) as [status|err];
     [destruct ((200 <=? status) && (status <=? 299));
      [|destruct ((status >=? 400) && (status <? 500))]
     |destruct (isAbortError err); destruct (k =? MAX_RETRIES)]
    |destruct (isAbortError StringifyError); destruct (k =? MAX_RETRIES)];
    cbn [snd trace]; eexists;
    (split; [rewrite <- ?app_assoc; reflexivity|]);
    (split;
     [repeat first [apply sends_only_app | apply sends_only_console
                   | constructor; [repeat split; reflexivity|] | constructor]
     |intros Hoff; rewrite ?printed_app, ?(silent_logger _ _ _ Hoff);
      reflexivity]).
Qed.

Lemma duration_bounded : forall r, duration r <= HTTP_TIMEOUT_MS.
Proof.
  intros r. unfold duration. destruct (latency r) as [t|]; [|lia].
  destruct (Z.ltb_spec t HTTP_TIMEOUT_MS); lia.
Qed.

(** One attempt returns, and takes no longer than the abort timer allows. *)
Lemma attempt_once_any : forall self endpoint e k w,
  exists flow w',
    attempt_once net self endpoint e k w = (Returned flow, w')
    /\ clock w' <= clock w + HTTP_TIMEOUT_MS.
Proof.
  intros self endpoint e k w. destruct (entry_stringifies e) eqn:Hs.
  - destruct (attempt_once_sent net self endpoint e k w Hs)
      as (flow & w' & E & _ & K & _).
    exists flow, w'. split; [exact E|].
    pose proof (duration_bounded (net (fetches w) e)). lia.
  - destruct (attempt_once_unsent net self endpoint e k w Hs)
      as (flow & w' & E & _ & K & _).
    exists flow, w'. split; [exact E|]. unfold HTTP_TIMEOUT_MS. lia.
Qed.

Lemma retry_budget_step : forall k,
  0 <= k <= MAX_RETRIES ->
  retry_budget k
    = HTTP_TIMEOUT_MS
      + (if k <? MAX_RETRIES then RETRY_DELAY_MS * (k + 1) else 0)
      + retry_budget (k + 1).
Proof.
  intros k Hk. unfold MAX_RETRIES in Hk.
  assert (H : k = 0 \/ k = 1 \/ k = 2 \/ k = 3) by lia.
  destruct H as [->|[->|[->| ->]]]; reflexivity.
Qed.

Lemma retry_budget_nonneg : forall k, 0 <= k -> 0 <= retry_budget k.
Proof.
  intros k Hk. destruct (Z.leb_spec k MAX_RETRIES) as [Hle|Hgt].
  - unfold MAX_RETRIES in Hle.
    assert (H : k = 0 \/ k = 1 \/ k = 2 \/ k = 3) by lia.
    destruct H as [->|[->|[->| ->]]]; vm_compute; discriminate.
  - unfold retry_budget. assert (C : (k <=? MAX_RETRIES) = false) by lia.
    rewrite C. lia.
Qed.

(** The loop, however it ends, is over within the budget of the attempts
    that were left, and adds to the trace only requests of the one entry,
    waits and lines of the logger. *)
Lemma retry_loop_bounded : forall fuel self endpoint e k w,
  0 <= k ->
  let end_ := snd (retry_loop net fuel self endpoint e k w) in
  clock end_ <= clock w + retry_budget k
  /\ exists evs,
       trace end_ = trace w ++ evs
       /\ sends_only endpoint (String.append "Bearer " (apiKey (config self))) e evs
       /\ (InternalLogger.debugEnabled (logger self) = false -> printed evs = []).
Proof.
  induction fuel as [|fuel IH]; intros self endpoint e k w Hk end_;
    pose proof (retry_budget_nonneg k Hk) as Hb; subst end_.
  - simpl. destruct (k <=? MAX_RETRIES); simpl; (split; [lia|]);
      exists []; rewrite app_nil_r; repeat split; constructor.
  - remember (retry_loop net (S fuel) self endpoint e k w) as res eqn:Hres.
    cbn [retry_loop] in Hres.
    destruct (Z.leb_spec k MAX_RETRIES) as [Hle|Hgt];
      [|subst res; simpl; split; [lia|]; exists []; rewrite app_nil_r;
        repeat split; constructor].
    unfold bind at 1 in Hres.
    destruct (attempt_once_any self endpoint e k w) as (flow & w1 & E & K1).
    destruct (attempt_once_trace self endpoint e k w) as (evs1 & T1 & S1 & P1).
    rewrite E in T1, Hres. cbn [snd] in T1.
    rewrite (retry_budget_step k) by lia.
    destruct flow as [b|].
    + subst res. cbn [snd ret]. split.
      * pose proof (retry_budget_nonneg (k + 1)).
        destruct (k <? MAX_RETRIES); unfold RETRY_DELAY_MS; lia.
      * exists evs1. auto.
    + unfold bind at 1 in Hres.
      assert (Hwait : exists w2 evs2,
                 (if k <? MAX_RETRIES
                  then delay (RETRY_DELAY_MS * (k + 1)) else ret tt) w1
                   = (Returned tt, w2)
                 /\ clock w2
                    = clock w1 + (if k <? MAX_RETRIES
                                  then RETRY_DELAY_MS * (k + 1) else 0)
                 /\ trace w2 = trace w1 ++ evs2
                 /\ sends_only endpoint
                      (String.append "Bearer " (apiKey (config self))) e evs2
                 /\ printed evs2 = []).
      { destruct (k <? MAX_RETRIES).
        - exists (elapse (RETRY_DELAY_MS * (k + 1))
                    {| clock := clock w1; fetches := fetches w1;
                       trace := trace w1 ++ [Delay (RETRY_DELAY_MS * (k + 1))] |}),
                 [Delay (RETRY_DELAY_MS * (k + 1))].
          repeat split; repeat constructor.
        - exists w1, []. rewrite app_nil_r. repeat split; try constructor.
          unfold ret. simpl. lia. }
      destruct Hwait as (w2 & evs2 & E2 & K2 & T2 & S2 & P2).
      rewrite E2 in Hres. subst res.
      destruct (IH self endpoint e (k + 1) w2) as (K3 & evs3 & T3 & S3 & P3);
        [lia|].
      split; [lia|].
      exists (evs1 ++ evs2 ++ evs3). split; [|split].
      * rewrite T3, T2, T1, <- !app_assoc. reflexivity.
      * auto using sends_only_app.
      * intros Hoff. rewrite !printed_app, P1, P2, P3 by exact Hoff. reflexivity.
Qed.

(** How long [sendLog] may take and what it may add to the trace, however
    it ends. *)
Lemma sendLog_bounded : forall self e w,
  let end_ := snd (sendLog net self e w) in
  clock end_ <= clock w + SENDLOG_WORST_CASE_MS
  /\ exists evs,
       trace end_ = trace w ++ evs
       /\ sends_only (String.append (baseUrl (config self)) "/api/sdk/logs")
            (String.append "Bearer " (apiKey (config self))) e evs
       /\ (debug self = false ->
           InternalLogger.debugEnabled (logger self) = false -> printed evs = []).
Proof.
  intros self e w end_. subst end_.
  remember (sendLog net self e w) as res eqn:Hres.
  unfold sendLog in Hres. unfold bind at 1 in Hres.
  set (endpoint := String.append (baseUrl (config self)) "/api/sdk/logs") in *.
  pose proof (retry_budget_nonneg 0 (Z.le_refl 0)) as Hb.
  fold SENDLOG_WORST_CASE_MS in Hb.
  destruct (debug self) eqn:Hd.
  - unfold bind, JSON_stringify, throw in Hres.
    destruct (entry_stringifies e).
    + unfold ret at 1 in Hres. unfold say, observe in Hres.
      match type of Hres with
      | _ = retry_loop net ?f self endpoint e 0 ?w0 =>
          destruct (retry_loop_bounded f self endpoint e 0 w0 (Z.le_refl 0))
            as (K & evs & T & S & P)
      end.
      rewrite <- Hres in K, T.
      cbn [clock trace] in K, T. split; [exact K|].
      exists (map Console [DebugSendingLog e] ++ evs). split; [|split].
      * rewrite T, <- app_assoc. reflexivity.
      * apply sends_only_app; [apply sends_only_console|exact S].
      * intros Hx. discriminate.
    + subst res. cbn [snd]. split; [lia|]. exists []. rewrite app_nil_r.
      repeat split; try constructor.
  - unfold ret at 1 in Hres.
    destruct (retry_loop_bounded (Z.to_nat (MAX_RETRIES + 1)) self endpoint e 0 w
                (Z.le_refl 0)) as (K & evs & T & S & P).
    rewrite <- Hres in K, T.
    split; [exact K|]. exists evs. auto.
Qed.

(** The loop of [sendBatch], however it ends. *)
Lemma sendBatch_loop_bounded : forall self entries successCount w,
  let res := sendBatch_loop net self entries successCount w in
  clock (snd res)
    <= clock w + SENDLOG_WORST_CASE_MS * Z.of_nat (List.length entries)
  /\ (debug self = false -> InternalLogger.debugEnabled (logger self) = false ->
      printed (trace (snd res)) = printed (trace w))
  /\ (forall n, fst res = Returned n ->
      successCount <= n <= successCount + Z.of_nat (List.length entries)).
Proof.
  intros self entries.
  pose proof (retry_budget_nonneg 0 (Z.le_refl 0)) as Hb.
  fold SENDLOG_WORST_CASE_MS in Hb.
  induction entries as [|e rest IH]; intros acc w res; subst res.
  - simpl. repeat split; try lia; auto.
    + inversion H; lia.
    + inversion H; lia.
  - remember (sendBatch_loop net self (e :: rest) acc w) as res eqn:Hres.
    cbn [sendBatch_loop] in Hres. unfold bind at 1 in Hres.
    cbn [List.length]. rewrite Nat2Z.inj_succ.
    destruct (sendLog_bounded self e w) as (K & evs & T & _ & P).
    destruct (sendLog net self e w) as [[b| |] w1]; cbn [snd] in K, T.
    + destruct (IH (if b then acc + 1 else acc) w1) as (K' & P' & N').
      rewrite <- Hres in K', P', N'.
      split; [|split].
      * lia.
      * intros Hd Hoff. rewrite (P' Hd Hoff), T, printed_app, (P Hd Hoff).
        now rewrite app_nil_r.
      * intros n H. specialize (N' n H). destruct b; lia.
    + subst res. cbn [snd fst]. split; [|split].
      * lia.
      * intros Hd Hoff. rewrite T, printed_app, (P Hd Hoff). now rewrite app_nil_r.
      * intros n H. discriminate.
    + subst res. cbn [snd fst]. split; [|split].
      * lia.
      * intros Hd Hoff. rewrite T, printed_app, (P Hd Hoff). now rewrite app_nil_r.
      * intros n H. discriminate.
Qed.

(** What precedes the loop in [sendBatch] when it does not throw. *)
Lemma sendBatch_preamble : forall self entries w,
  debug self = false \/ forallb entry_stringifies entries = true ->
  exists w0,
    (if debug self && (0 <? Z.of_nat (List.length entries))
     then bind (JSON_stringify_all entries)
               (fun _ => say [DebugSendingBatch entries])
     else ret tt) w = (Returned tt, w0)
    /\ fetches w0 = fetches w /\ clock w0 = clock w
    /\ steps (trace w0) = steps (trace w)
    /\ (debug self = false -> w0 = w).
Proof.
  intros self entries w H.
  destruct (debug self && (0 <? Z.of_nat (List.length entries))) eqn:Hd.
  - apply andb_true_iff in Hd. destruct Hd as [Hd _].
    destruct H as [H|H]; [congruence|].
    unfold bind, JSON_stringify_all. rewrite H. unfold ret at 1.
    destruct (say_quiet [DebugSendingBatch entries] w) as (w0 & E0 & F0 & K0 & _ & S0).
    exists w0. repeat split; auto. congruence.
  - exists w. auto.
Qed.

(** An entry that does not serialise, outside debug mode: every attempt
    fails before its request is made, and is retried all the same. *)
Lemma retry_loop_unsent : forall fuel self endpoint e k w,
  entry_stringifies e = false ->
  k < MAX_RETRIES ->
  exists w',
    retry_loop net (S fuel) self endpoint e k w
      = retry_loop net fuel self endpoint e (k + 1) w'
    /\ fetches w' = fetches w
    /\ clock w' = clock w + RETRY_DELAY_MS * (k + 1)
    /\ steps (trace w') = steps (trace w) ++ [Wait (RETRY_DELAY_MS * (k + 1))].
Proof.
  intros fuel self endpoint e k w Hs Hk.
  assert (C1 : (k <=? MAX_RETRIES) = true) by lia.
  assert (C2 : (k <? MAX_RETRIES) = true) by lia.
  cbn [retry_loop]. rewrite C1, C2. unfold bind at 1.
  destruct (attempt_once_unsent net self endpoint e k w Hs)
    as (flow & w1 & E & F1 & K1 & _ & W1 & Hflow).
  rewrite E. destruct Hflow as [-> | [Hmax _]]; [|lia].
  unfold bind at 1.
  destruct (delay_waits (RETRY_DELAY_MS * (k + 1)) w1)
    as (w2 & E2 & F2 & K2 & _ & W2).
  rewrite E2. exists w2. split; [reflexivity|].
  repeat split; congruence.
Qed.

Lemma retry_loop_unsent_last : forall fuel self endpoint e w,
  entry_stringifies e = false ->
  exists w',
    retry_loop net (S fuel) self endpoint e MAX_RETRIES w = (Returned false, w')
    /\ fetches w' = fetches w
    /\ clock w' = clock w
    /\ steps (trace w') = steps (trace w).
Proof.
  intros fuel self endpoint e w Hs.
  cbn [retry_loop].
  change (MAX_RETRIES <=? MAX_RETRIES) with true.
  change (MAX_RETRIES <? MAX_RETRIES) with false. cbv iota.
  unfold bind at 1.
  destruct (attempt_once_unsent net self endpoint e MAX_RETRIES w Hs)
    as (flow & w1 & E & F1 & K1 & _ & W1 & Hflow).
  rewrite E. exists w1.
  destruct Hflow as [-> | [_ ->]].
  - unfold bind, ret. rewrite retry_loop_exit by (unfold MAX_RETRIES; lia). auto.
  - auto.
Qed.

Lemma delivered_not_rejected : forall r,
  rejected_permanently r = true -> delivered r = false.
Proof.
  intros r. unfold rejected_permanently, delivered.
  destruct (answer r); [|reflexivity].
  intros H. apply andb_true_iff in H. apply andb_false_iff. lia.
Qed.

(** A first answer that is 2xx or 4xx ends [sendLog] at once. *)
Lemma sendLog_final_answer : forall self e w,
  entry_stringifies e = true ->
  delivered (net (fetches w) e) || rejected_permanently (net (fetches w) e) = true ->
  exists w',
    sendLog net self e w = (Returned (delivered (net (fetches w) e)), w')
    /\ fetches w' = S (fetches w)
    /\ steps (trace w') = steps (trace w) ++ [Request e].
Proof.
  intros self e w Hs Hfinal. unfold sendLog. unfold bind at 1.
  destruct (sendLog_preamble self e w (or_intror Hs))
    as (w0 & E0 & F0 & _ & _ & W0).
  rewrite E0. rewrite <- F0 in Hfinal |- *.
  change (Z.to_nat (MAX_RETRIES + 1)) with 4%nat.
  set (endpoint := String.append _ _).
  destruct (delivered (net (fetches w0) e)) eqn:Hd.
  - destruct (retry_loop_delivered net 3 self endpoint e 0 w0 Hs)
      as (w' & E & F & _ & _ & W); [unfold MAX_RETRIES; lia|exact Hd|].
    exists w'. split; [exact E|]. split; congruence.
  - simpl in Hfinal.
    destruct (retry_loop_rejected net 3 self endpoint e 0 w0 Hs)
      as (w' & E & F & _ & _ & W); [unfold MAX_RETRIES; lia|exact Hfinal|].
    exists w'. split; [exact E|]. split; congruence.
Qed.

Lemma sendBatch_loop_final_answers : forall self entries successCount w,
  forallb entry_stringifies entries = true ->
  (forall n e, delivered (net n e) || rejected_permanently (net n e) = true) ->
  exists w',
    sendBatch_loop net self entries successCount w
      = (Returned (successCount
                   + successes (first_answers net (fetches w) entries)), w')
    /\ fetches w' = (fetches w + List.length entries)%nat
    /\ steps (trace w') = steps (trace w) ++ map Request entries.
Proof.
  intros self entries. induction entries as [|e rest IH]; intros acc w Hs Hfinal.
  - exists w. simpl. rewrite app_nil_r. unfold ret, successes. simpl.
    rewrite Z.add_0_r, Nat.add_0_r. auto.
  - simpl in Hs. apply andb_true_iff in Hs. destruct Hs as [Hs Hrest].
    destruct (sendLog_final_answer self e w Hs (Hfinal _ _)) as (w1 & E & F & W).
    destruct (IH (if delivered (net (fetches w) e) then acc + 1 else acc) w1
                 Hrest Hfinal) as (w' & E' & F' & W').
    exists w'. cbn [sendBatch_loop first_answers]. unfold bind at 1.
    rewrite E, E', F. split; [|split].
    + rewrite successes_cons. do 2 f_equal.
      destruct (delivered (net (fetches w) e)); lia.
    + rewrite F', F. simpl. lia.
    + rewrite W', W, <- app_assoc. reflexivity.
Qed.

(** How long [sendBatch] may take, what it prints and how many it counts,
    however it ends. *)
Lemma sendBatch_bounded : forall self entries w,
  let res := sendBatch net self entries w in
  clock (snd res)
    <= clock w + SENDLOG_WORST_CASE_MS * Z.of_nat (List.length entries)
  /\ (debug self = false -> InternalLogger.debugEnabled (logger self) = false ->
      printed (trace (snd res)) = printed (trace w))
  /\ (forall n, fst res = Returned n -> 0 <= n <= Z.of_nat (List.length entries)).
Proof.
  intros self entries w res. subst res.
  remember (sendBatch net self entries w) as res eqn:Hres.
  unfold sendBatch in Hres. unfold bind at 1 in Hres.
  pose proof (retry_budget_nonneg 0 (Z.le_refl 0)) as Hb.
  fold SENDLOG_WORST_CASE_MS in Hb.
  destruct (debug self && (0 <? Z.of_nat (List.length entries))) eqn:Hd.
  - apply andb_true_iff in Hd. destruct Hd as [Hd _].
    unfold bind, JSON_stringify_all, throw in Hres.
    destruct (forallb entry_stringifies entries).
    + unfold ret at 1 in Hres. unfold say, observe in Hres.
      match type of Hres with
      | _ = sendBatch_loop net self entries 0 ?w0 =>
          destruct (sendBatch_loop_bounded self entries 0 w0) as (K & _ & N)
      end.
      rewrite <- Hres in K, N. cbn [clock] in K.
      split; [exact K|]. split; [congruence|exact N].
    + subst res. cbn [snd fst]. split; [nia|]. split; [congruence|discriminate].
  - unfold ret at 1 in Hres.
    destruct (sendBatch_loop_bounded self entries 0 w) as (K & P & N).
    rewrite <- Hres in K, P, N. auto.
Qed.

End TransportMore.

(** X5. Outside debug mode, and in debug mode on an entry that serialises,
    [sendLog] returns a boolean for every entry and every remote end, after
    at most four requests, each carrying the entry. *)
Theorem sendLog_returns_outside_debug :
  forall (net : nat -> LogEntry -> Reply) (self : HttpClient.t)
         (e : LogEntry) (w : World),
    HttpClient.debug self = false \/ entry_stringifies e = true ->
    exists b w' n,
      HttpClient.sendLog net self e w = (Returned b, w')
      /\ (n <= 4)%nat
      /\ fetches w' = (fetches w + n)%nat
      /\ fetched (trace w') = fetched (trace w) ++ repeat e n.
Proof.
  intros net self e w H. apply sendLog_returns. exact H.
Qed.

Lemma sendLog_returns_outside_debug_witness :
  exists b w' n,
    HttpClient.sendLog silent (sampleClient false) unserializable world0
      = (Returned b, w')
    /\ (n <= 4)%nat
    /\ fetches w' = (0 + n)%nat
    /\ fetched (trace w') = [] ++ repeat unserializable n.
Proof.
  apply (sendLog_returns_outside_debug silent (sampleClient false)
           unserializable world0).
  left; reflexivity.
Defined.

(** X6. Wire protocol of [sendLog]: however it ends, [sendLog] only adds to
    what was observed before, and every request it makes goes to
    [baseUrl + '/api/sdk/logs'] with the header [Authorization: Bearer
    apiKey] and carries the entry it was given. *)
Theorem sendLog_requests :
  forall (net : nat -> LogEntry -> Reply) (self : HttpClient.t)
         (e : LogEntry) (w : World),
    exists evs,
      trace (snd (HttpClient.sendLog net self e w)) = trace w ++ evs
      /\ sends_only
           (String.append (baseUrl (HttpClient.config self)) "/api/sdk/logs")
           (String.append "Bearer " (apiKey (HttpClient.config self)))
           e evs.
Proof.
  intros net self e w.
  destruct (sendLog_bounded net self e w) as (_ & evs & T & S & _).
  exists evs. auto.
Qed.

(** X7. Worst-case duration: however it ends, [sendLog] is over within
    46000 ms, four attempts of at most [HTTP_TIMEOUT_MS] and waits of 1000,
    2000 and 3000 ms, and [sendBatch] within 46000 ms per entry of the
    batch, whatever the remote end does. *)
Theorem transport_worst_case_duration :
  forall (net : nat -> LogEntry -> Reply) (self : HttpClient.t)
         (e : LogEntry) (entries : list LogEntry) (w : World),
    clock (snd (HttpClient.sendLog net self e w)) <= clock w + 46000
    /\ clock (snd (HttpClient.sendBatch net self entries w))
       <= clock w + 46000 * Z.of_nat (List.length entries).
Proof.
  intros net self e entries w. split.
  - apply (sendLog_bounded net self e w).
  - apply (sendBatch_bounded net self entries w).
Qed.

(** X8. A serialisation failure is retried like a network failure: outside
    debug mode, on an entry that JSON cannot carry, [sendLog] makes no
    request at all, still waits 1000, 2000 and 3000 ms between its four
    attempts, and returns false after these 6000 ms. *)
Theorem sendLog_retries_unserializable :
  forall (net : nat -> LogEntry -> Reply) (self : HttpClient.t)
         (e : LogEntry) (w : World),
    HttpClient.debug self = false ->
    entry_stringifies e = false ->
    exists w',
      HttpClient.sendLog net self e w = (Returned false, w')
      /\ fetches w' = fetches w
      /\ steps (trace w') = steps (trace w) ++ [Wait 1000; Wait 2000; Wait 3000]
      /\ clock w' = clock w + 6000.
Proof.
  intros net self e w Hd Hs. unfold HttpClient.sendLog. rewrite Hd.
  unfold bind at 1. unfold ret at 1.
  change (Z.to_nat (MAX_RETRIES + 1)) with 4%nat.
  set (endpoint := String.append _ _).
  destruct (retry_loop_unsent net 3 self endpoint e 0 w Hs)
    as (w1 & E1 & F1 & K1 & W1); [unfold MAX_RETRIES; lia|].
  destruct (retry_loop_unsent net 2 self endpoint e 1 w1 Hs)
    as (w2 & E2 & F2 & K2 & W2); [unfold MAX_RETRIES; lia|].
  destruct (retry_loop_unsent net 1 self endpoint e 2 w2 Hs)
    as (w3 & E3 & F3 & K3 & W3); [unfold MAX_RETRIES; lia|].
  destruct (retry_loop_unsent_last net 0 self endpoint e w3 Hs)
    as (w' & E & F & K & W).
  rewrite E1. change (0 + 1) with 1. rewrite E2. change (1 + 1) with 2.
  rewrite E3. change (2 + 1) with MAX_RETRIES. rewrite E.
  exists w'. split; [reflexivity|]. split; [congruence|]. split.
  - rewrite W, W3, W2, W1, <- !app_assoc. reflexivity.
  - rewrite K, K3, K2, K1. unfold RETRY_DELAY_MS. lia.
Qed.

Lemma sendLog_retries_unserializable_witness :
  exists w',
    HttpClient.sendLog (always 200 20) (sampleClient false) unserializable world0
      = (Returned false, w')
    /\ fetches w' = 0%nat
    /\ steps (trace w') = [Wait 1000; Wait 2000; Wait 3000]
    /\ clock w' = 6000.
Proof.
  apply (sendLog_retries_unserializable (always 200 20) (sampleClient false)
           unserializable world0); reflexivity.
Defined.

(** X9. The count [sendBatch] returns, when it returns one, lies between 0
    and the number of entries of the batch. *)
Theorem sendBatch_count_bounds :
  forall (net : nat -> LogEntry -> Reply) (self : HttpClient.t)
         (entries : list LogEntry) (w : World) (n : Z),
    fst (HttpClient.sendBatch net self entries w) = Returned n ->
    0 <= n <= Z.of_nat (List.length entries).
Proof.
  intros net self entries w n H.
  apply (sendBatch_bounded net self entries w). exact H.
Qed.

Lemma sendBatch_count_bounds_witness :
  0 <= 1 <= Z.of_nat (List.length [sample "/1"; unserializable]).
Proof.
  apply (sendBatch_count_bounds (always 200 20) (sampleClient false)
           [sample "/1"; unserializable] world0 1).
  reflexivity.
Defined.

(** X10. No retry on final answers: when every entry of the batch
    serialises and the remote end answers every request with a 2xx or a 4xx
    status, [sendBatch] makes exactly one request per entry, in the order
    of the batch, with no wait anywhere, and returns the number of entries
    whose request was answered 2xx. *)
Theorem sendBatch_one_request_each :
  forall (net : nat -> LogEntry -> Reply) (self : HttpClient.t)
         (entries : list LogEntry) (w : World),
    forallb entry_stringifies entries = true ->
    (forall n e, delivered (net n e) || rejected_permanently (net n e) = true) ->
    exists w',
      HttpClient.sendBatch net self entries w
        = (Returned (successes (first_answers net (fetches w) entries)), w')
      /\ fetches w' = (fetches w + List.length entries)%nat
      /\ steps (trace w') = steps (trace w) ++ map Request entries.
Proof.
  intros net self entries w Hs Hfinal. unfold HttpClient.sendBatch.
  unfold bind at 1.
  destruct (sendBatch_preamble self entries w (or_intror Hs))
    as (w0 & E0 & F0 & _ & W0 & _).
  rewrite E0.
  destruct (sendBatch_loop_final_answers net self entries 0 w0 Hs Hfinal)
    as (w' & E & F & W).
  exists w'. rewrite E, F0. split; [reflexivity|]. split; congruence.
Qed.

Lemma sendBatch_one_request_each_witness :
  exists w',
    HttpClient.sendBatch (always 404 20) (sampleClient true)
      [sample "/1"; sample "/2"] world0
      = (Returned 0, w')
    /\ fetches w' = 2%nat
    /\ steps (trace w') = [Request (sample "/1"); Request (sample "/2")].
Proof.
  apply (sendBatch_one_request_each (always 404 20) (sampleClient true)
           [sample "/1"; sample "/2"] world0).
  - reflexivity.
  - intros n e. reflexivity.
Defined.

(** X11. Silent in production: with the debug flag of the client and of
    its logger off, [sendBatch] prints nothing, whatever the batch and the
    remote end and however the deliveries go. *)
Theorem sendBatch_silent_without_debug :
  forall (net : nat -> LogEntry -> Reply) (self : HttpClient.t)
         (entries : list LogEntry) (w : World),
    HttpClient.debug self = false ->
    InternalLogger.debugEnabled (HttpClient.logger self) = false ->
    printed (trace (snd (HttpClient.sendBatch net self entries w)))
      = printed (trace w).
Proof.
  intros net self entries w Hd Hoff.
  apply (sendBatch_bounded net self entries w); assumption.
Qed.

Lemma sendBatch_silent_without_debug_witness :
  printed (trace (snd (HttpClient.sendBatch (always 503 20) (sampleClient false)
                         [sample "/1"; unserializable] world0)))
    = printed (trace world0).
Proof.
  apply (sendBatch_silent_without_debug (always 503 20) (sampleClient false)
           [sample "/1"; unserializable] world0); reflexivity.
Defined.

(* ================================================================== *)
(** * Further properties of the SDK and of the loader *)

Section SDKMore.

Import LogSentinelSDK.

Lemma log_keeps_flags : forall m msg s,
  isEnabled (log m msg s) = isEnabled s
  /\ isShuttingDown (log m msg s) = isShuttingDown s
  /\ hooksRegistered (log m msg s) = hooksRegistered s
  /\ interceptorInstalled (log m msg s) = interceptorInstalled s
  /\ sendBatchCalls (log m msg s) = sendBatchCalls s.
Proof.
  intros m msg s. unfold log. destruct (logger s); repeat split; reflexivity.
Qed.

Lemma race_keeps_calls : forall net h awaited w,
  BatchFlusher.sendBatchCalls (fst (race net h awaited w))
    = BatchFlusher.sendBatchCalls h.
Proof.
  intros net h awaited w. unfold race.
  destruct awaited as [entries|]; [|reflexivity].
  destruct (HttpClient.sendBatch net _ entries w) as [o w'].
  destruct (BatchFlusher.settled o) as [result|]; [|reflexivity].
  destruct (clock w' - clock w <? SHUTDOWN_GRACE_PERIOD_MS); [|reflexivity].
  apply settle_keeps_records.
Qed.

(** [shutdown] leaves the flags of the SDK as they are. *)
Lemma shutdown_keeps_flags : forall net s w,
  let s' := after (shutdown net s w) in
  isEnabled s' = isEnabled s
  /\ isShuttingDown s' = isShuttingDown s
  /\ hooksRegistered s' = hooksRegistered s
  /\ interceptorInstalled s' = interceptorInstalled s.
Proof.
  intros net s w s'. subst s'. unfold shutdown.
  destruct (isEnabled s) eqn:He; [|cbn [after]; auto].
  destruct (queue s) as [q|]; [|cbn [after]; auto].
  destruct (flusher s) as [f|]; [|cbn [after]; auto].
  cbv zeta.
  destruct (BatchFlusher.manualFlush _) as [h3 awaited].
  destruct (race net h3 awaited w) as [h4 took]. cbn [after].
  destruct (BatchQueue.size (BatchFlusher.queue h4) >? 0);
    match goal with
    | |- context [log ?m ?msg ?x] =>
        destruct (log_keeps_flags m msg x) as (-> & -> & -> & -> & _)
    end; simpl; auto.
Qed.

(** The final flush of [shutdown] hands over what the queue held. *)
Lemma shutdown_calls : forall net s w q f,
  isEnabled s = true -> queue s = Some q -> flusher s = Some f ->
  BatchFlusher.flushInProgress f = false ->
  sendBatchCalls (after (shutdown net s w))
    = sendBatchCalls s
      ++ match BatchQueue.queue q with
         | [] => []
         | entries => [entries]
         end.
Proof.
  intros net s w q f He Hq Hf Hidle.
  unfold shutdown. rewrite He, Hq, Hf. cbv zeta.
  set (h2 := BatchFlusher.stop _).
  assert (Hfree : BatchFlusher.flushInProgress (BatchFlusher.self h2) = false)
    by exact Hidle.
  unfold BatchFlusher.manualFlush.
  pose proof (flush_when_free h2 Hfree) as [Hcase _].
  destruct (BatchFlusher.flush h2) as [h3 awaited]. simpl fst in *.
  pose proof (race_keeps_calls net h3 awaited w) as R.
  destruct (race net h3 awaited w) as [h4 took]. simpl fst in *.
  cbn [after].
  assert (Hcalls : BatchFlusher.sendBatchCalls h3
                   = sendBatchCalls s
                     ++ match BatchQueue.queue q with
                        | [] => []
                        | entries => [entries]
                        end).
  { change (BatchQueue.queue (BatchFlusher.queue h2)) with (BatchQueue.queue q)
      in Hcase.
    change (BatchFlusher.sendBatchCalls h2) with (sendBatchCalls s) in Hcase.
    destruct (BatchQueue.queue q) as [|e rest].
    - destruct Hcase as (_ & _ & -> & _). now rewrite app_nil_r.
    - destruct Hcase as (_ & _ & -> & _). reflexivity. }
  destruct (BatchQueue.size (BatchFlusher.queue h4) >? 0);
    rewrite (proj2 (proj2 (proj2 (proj2 (log_keeps_flags _ _ _)))));
    simpl; congruence.
Qed.

End SDKMore.

(** X12. What [shutdown] reports: on an enabled SDK, the value reported as
    remaining is 0 whenever its final flush takes the guard, whatever the
    remote end does with the batch, and the size of the queue when a flush
    was already under way; [shutdown] never takes longer than the grace
    period, and leaves the queue closed and the timer stopped. *)
Theorem shutdown_report_is_queue_size :
  forall (net : nat -> LogEntry -> Reply) (s : LogSentinelSDK.t) (w : World)
         (q : BatchQueue.t) (f : BatchFlusher.t),
    LogSentinelSDK.isEnabled s = true ->
    LogSentinelSDK.queue s = Some q ->
    LogSentinelSDK.flusher s = Some f ->
    let r := LogSentinelSDK.shutdown net s w in
    LogSentinelSDK.remaining r
      = Some (if BatchFlusher.flushInProgress f then BatchQueue.size q else 0)
    /\ LogSentinelSDK.waited r <= SHUTDOWN_GRACE_PERIOD_MS
    /\ (exists q', LogSentinelSDK.queue (LogSentinelSDK.after r) = Some q'
                   /\ BatchQueue.isShuttingDown q' = true)
    /\ (exists f', LogSentinelSDK.flusher (LogSentinelSDK.after r) = Some f'
                   /\ BatchFlusher.intervalHandle f' = None
                   /\ BatchFlusher.isRunning f' = false).
Proof.
  intros net s w q f He Hq Hf. exact (shutdown_report net s w q f He Hq Hf).
Qed.

Lemma shutdown_report_is_queue_size_witness :
  let r := LogSentinelSDK.shutdown (always 200 20) (sdkHoldingTwo false) world0 in
  LogSentinelSDK.remaining r = Some 0
  /\ LogSentinelSDK.waited r <= SHUTDOWN_GRACE_PERIOD_MS
  /\ (exists q', LogSentinelSDK.queue (LogSentinelSDK.after r) = Some q'
                 /\ BatchQueue.isShuttingDown q' = true)
  /\ (exists f', LogSentinelSDK.flusher (LogSentinelSDK.after r) = Some f'
                 /\ BatchFlusher.intervalHandle f' = None
                 /\ BatchFlusher.isRunning f' = false).
Proof.
  apply (shutdown_report_is_queue_size (always 200 20) (sdkHoldingTwo false) world0
           (BatchQueue.mk [sample "/1"; sample "/2"] false)
           (BatchFlusher.mk (sampleClient false) (InternalLogger.mk false) 5
                            (Some FLUSH_INTERVAL_MS) true false));
    reflexivity.
Defined.

(** X13. The final flush takes everything: when no flush is under way,
    [shutdown] on an enabled SDK makes exactly one more call of [sendBatch],
    on all the entries the queue holds in their order, and none if the
    queue is empty. *)
Theorem shutdown_sends_what_is_queued :
  forall (net : nat -> LogEntry -> Reply) (s : LogSentinelSDK.t) (w : World)
         (q : BatchQueue.t) (f : BatchFlusher.t),
    LogSentinelSDK.isEnabled s = true ->
    LogSentinelSDK.queue s = Some q ->
    LogSentinelSDK.flusher s = Some f ->
    BatchFlusher.flushInProgress f = false ->
    LogSentinelSDK.sendBatchCalls (LogSentinelSDK.after (LogSentinelSDK.shutdown net s w))
      = LogSentinelSDK.sendBatchCalls s
        ++ match BatchQueue.queue q with
           | [] => []
           | entries => [entries]
           end.
Proof.
  intros net s w q f He Hq Hf Hidle.
  exact (shutdown_calls net s w q f He Hq Hf Hidle).
Qed.

Lemma shutdown_sends_what_is_queued_witness :
  LogSentinelSDK.sendBatchCalls
    (LogSentinelSDK.after (LogSentinelSDK.shutdown silent (sdkHoldingTwo false) world0))
  = [] ++ [[sample "/1"; sample "/2"]].
Proof.
  apply (shutdown_sends_what_is_queued silent (sdkHoldingTwo false) world0
           (BatchQueue.mk [sample "/1"; sample "/2"] false)
           (BatchFlusher.mk (sampleClient false) (InternalLogger.mk false) 5
                            (Some FLUSH_INTERVAL_MS) true false));
    reflexivity.
Defined.

(** X14. A failing host application disables the SDK: when [app.use] or
    [app.useGlobalInterceptors] throws during [install], the SDK ends up
    not enabled, with no interceptor, no signal handler and no timer, its
    queue empty; [shutdown] on it does nothing and no entry is captured. *)
Theorem install_failure_disables :
  forall (cfg : EnvConfig) (opts : option LogSentinelOptions)
         (app : INestApplication) (e : Exn)
         (net : nat -> LogEntry -> Reply) (w : World) (entry : LogEntry),
    use app = Some e \/ useGlobalInterceptors app = Some e ->
    let s := LogSentinelSDK.install (Some cfg) app (LogSentinelSDK.new opts) in
    LogSentinelSDK.isEnabled s = false
    /\ LogSentinelSDK.isActive s = false
    /\ LogSentinelSDK.interceptorInstalled s = false
    /\ LogSentinelSDK.hooksRegistered s = false
    /\ LogSentinelSDK.getQueueSize s = 0
    /\ match LogSentinelSDK.flusher s with
       | Some f => BatchFlusher.intervalHandle f = None
                   /\ BatchFlusher.isRunning f = false
       | None => True
       end
    /\ LogSentinelSDK.shutdown net s w
       = {| LogSentinelSDK.after := s; LogSentinelSDK.remaining := None;
            LogSentinelSDK.waited := 0 |}
    /\ LogSentinelSDK.capture entry s = (s, false).
Proof.
  intros cfg opts app e net w entry H s. subst s.
  unfold LogSentinelSDK.install.
  destruct (use app) as [e1|] eqn:Hu.
  - repeat split; reflexivity.
  - destruct (useGlobalInterceptors app) as [e2|] eqn:Hg.
    + repeat split; reflexivity.
    + destruct H; discriminate.
Qed.

Lemma install_failure_disables_witness :
  let s := LogSentinelSDK.install (Some (sampleConfig true)) hostileApp
             (LogSentinelSDK.new None) in
  LogSentinelSDK.isEnabled s = false
  /\ LogSentinelSDK.isActive s = false
  /\ LogSentinelSDK.interceptorInstalled s = false
  /\ LogSentinelSDK.hooksRegistered s = false
  /\ LogSentinelSDK.getQueueSize s = 0
  /\ match LogSentinelSDK.flusher s with
     | Some f => BatchFlusher.intervalHandle f = None
                 /\ BatchFlusher.isRunning f = false
     | None => True
     end
  /\ LogSentinelSDK.shutdown silent s world0
     = {| LogSentinelSDK.after := s; LogSentinelSDK.remaining := None;
          LogSentinelSDK.waited := 0 |}
  /\ LogSentinelSDK.capture (sample "/1") s = (s, false).
Proof.
  apply (install_failure_disables (sampleConfig true) None hostileApp
           (JsError "Error" "app.use is not a function") silent world0 (sample "/1")).
  left; reflexivity.
Defined.

(** X15. The signal handler runs once: after a first signal has been
    handled, the SDK is shutting down and no longer active, and the handler
    does nothing on any later signal. *)
Theorem shutdownHandler_runs_once :
  forall (net : nat -> LogEntry -> Reply) (s : LogSentinelSDK.t)
         (first second : string) (w w2 : World),
    LogSentinelSDK.hooksRegistered s = true ->
    LogSentinelSDK.isShuttingDown s = false ->
    let r1 := LogSentinelSDK.shutdownHandler net first s w in
    LogSentinelSDK.isShuttingDown (LogSentinelSDK.after r1) = true
    /\ LogSentinelSDK.isActive (LogSentinelSDK.after r1) = false
    /\ LogSentinelSDK.shutdownHandler net second (LogSentinelSDK.after r1) w2
       = {| LogSentinelSDK.after := LogSentinelSDK.after r1;
            LogSentinelSDK.remaining := None; LogSentinelSDK.waited := 0 |}.
Proof.
  intros net s first second w w2 Hh Hs r1.
  assert (Hdown : LogSentinelSDK.isShuttingDown (LogSentinelSDK.after r1) = true).
  { subst r1. unfold LogSentinelSDK.shutdownHandler. rewrite Hh, Hs. simpl orb.
    cbv iota.
    match goal with
    | |- context [LogSentinelSDK.shutdown net ?x w] =>
        destruct (shutdown_keeps_flags net x w) as (_ & -> & _)
    end.
    match goal with
    | |- context [LogSentinelSDK.log ?m ?msg ?x] =>
        destruct (log_keeps_flags m msg x) as (_ & -> & _)
    end.
    reflexivity. }
  split; [exact Hdown|]. split.
  - unfold LogSentinelSDK.isActive. rewrite Hdown. apply andb_false_r.
  - unfold LogSentinelSDK.shutdownHandler at 1. rewrite Hdown.
    rewrite orb_true_r. reflexivity.
Qed.

Lemma shutdownHandler_runs_once_witness :
  let r1 := LogSentinelSDK.shutdownHandler silent "SIGINT" (sdkHoldingTwo false) world0 in
  LogSentinelSDK.isShuttingDown (LogSentinelSDK.after r1) = true
  /\ LogSentinelSDK.isActive (LogSentinelSDK.after r1) = false
  /\ LogSentinelSDK.shutdownHandler silent "SIGTERM" (LogSentinelSDK.after r1) world0
     = {| LogSentinelSDK.after := LogSentinelSDK.after r1;
          LogSentinelSDK.remaining := None; LogSentinelSDK.waited := 0 |}.
Proof.
  apply (shutdownHandler_runs_once silent (sdkHoldingTwo false)
           "SIGINT" "SIGTERM" world0 world0); reflexivity.
Defined.

(** X16. Nothing is captured after shutdown: once [shutdown] has run on an
    enabled SDK, the interceptor's [add] is refused for every entry and
    leaves the SDK, its queue included, exactly as it was. *)
Theorem capture_after_shutdown_refused :
  forall (net : nat -> LogEntry -> Reply) (s : LogSentinelSDK.t) (w : World)
         (q : BatchQueue.t) (f : BatchFlusher.t) (entry : LogEntry),
    LogSentinelSDK.isEnabled s = true ->
    LogSentinelSDK.queue s = Some q ->
    LogSentinelSDK.flusher s = Some f ->
    let s' := LogSentinelSDK.after (LogSentinelSDK.shutdown net s w) in
    LogSentinelSDK.capture entry s' = (s', false).
Proof.
  intros net s w q f entry He Hq Hf s'.
  destruct (shutdown_report net s w q f He Hq Hf) as (_ & _ & (q' & Hq' & Hclosed) & _).
  fold s' in Hq'. clearbody s'.
  unfold LogSentinelSDK.capture. rewrite Hq'.
  destruct (LogSentinelSDK.interceptorInstalled s') eqn:Hi; [|reflexivity].
  unfold BatchQueue.add. rewrite Hclosed.
  destruct s'; simpl in *. subst. reflexivity.
Qed.

Lemma capture_after_shutdown_refused_witness :
  let s' := LogSentinelSDK.after
              (LogSentinelSDK.shutdown silent (sdkHoldingTwo false) world0) in
  LogSentinelSDK.capture (sample "/3") s' = (s', false).
Proof.
  apply (capture_after_shutdown_refused silent (sdkHoldingTwo false) world0
           (BatchQueue.mk [sample "/1"; sample "/2"] false)
           (BatchFlusher.mk (sampleClient false) (InternalLogger.mk false) 5
                            (Some FLUSH_INTERVAL_MS) true false)
           (sample "/3"));
    reflexivity.
Defined.

(** X17. A capture on an installed SDK whose queue is open is accepted and
    makes [getQueueSize] one larger. *)
Theorem capture_grows_queue :
  forall (s : LogSentinelSDK.t) (q : BatchQueue.t) (entry : LogEntry),
    LogSentinelSDK.queue s = Some q ->
    LogSentinelSDK.interceptorInstalled s = true ->
    BatchQueue.isShuttingDown q = false ->
    snd (LogSentinelSDK.capture entry s) = true
    /\ LogSentinelSDK.getQueueSize (fst (LogSentinelSDK.capture entry s))
       = LogSentinelSDK.getQueueSize s + 1.
Proof.
  intros s q entry Hq Hi Hopen.
  unfold LogSentinelSDK.capture, LogSentinelSDK.getQueueSize.
  rewrite Hq, Hi. unfold BatchQueue.add. rewrite Hopen.
  cbn [fst snd]. split; [reflexivity|].
  unfold LogSentinelSDK.log. cbn [LogSentinelSDK.logger].
  destruct (LogSentinelSDK.logger s); cbn [LogSentinelSDK.queue LogSentinelSDK.print];
    unfold BatchQueue.size; cbn [BatchQueue.queue];
    rewrite length_app; cbn [List.length]; lia.
Qed.

Lemma capture_grows_queue_witness :
  snd (LogSentinelSDK.capture (sample "/3") (sdkHoldingTwo true)) = true
  /\ LogSentinelSDK.getQueueSize
       (fst (LogSentinelSDK.capture (sample "/3") (sdkHoldingTwo true)))
     = LogSentinelSDK.getQueueSize (sdkHoldingTwo true) + 1.
Proof.
  apply (capture_grows_queue (sdkHoldingTwo true)
           (BatchQueue.mk [sample "/1"; sample "/2"] false) (sample "/3"));
    reflexivity.
Defined.

(** X18. The loader gives up exactly on a missing or invalid
    configuration: [loadEnvironmentConfig] returns null if and only if the
    API key or the base URL is absent, empty or blank, or the base URL is
    not accepted by [new URL]; the debug flag and the batch size never make
    it fail. *)
Theorem loadEnvironmentConfig_null_iff :
  forall (trim : string -> string) (URL_parses : string -> bool)
         (parseInt : string -> option Z) (dropTrailingSlash : string -> string)
         (env : ProcessEnv),
    loadEnvironmentConfig trim URL_parses parseInt dropTrailingSlash env = None
    <-> misconfigured trim URL_parses env = true.
Proof.
  intros. apply loadEnvironmentConfig_none.
Qed.

Lemma loadEnvironmentConfig_null_iff_witness :
  loadEnvironmentConfig (fun s => s) (fun _ => false) (fun _ => Some 7) (fun s => s)
    {| LOGSENTINEL_API_KEY := Some "key";
       LOGSENTINEL_BASE_URL := Some "not a url";
       LOGSENTINEL_DEBUG := Some "true";
       LOGSENTINEL_BATCH_SIZE := Some "7" |} = None.
Proof.
  apply (proj2 (loadEnvironmentConfig_null_iff (fun s => s) (fun _ => false)
                  (fun _ => Some 7) (fun s => s) _)).
  reflexivity.
Defined.

(** X19. What the loader returns: a configuration it returns has a batch
    size of at least 1, the default 5 standing in for a value that is
    absent, empty, not a number or below 1; its debug flag is set exactly
    when LOGSENTINEL_DEBUG is the string true; its key is the trimmed key
    and its base URL the trimmed URL without its trailing slash. *)
Theorem loadEnvironmentConfig_valid :
  forall (trim : string -> string) (URL_parses : string -> bool)
         (parseInt : string -> option Z) (dropTrailingSlash : string -> string)
         (env : ProcessEnv) (cfg : EnvConfig),
    loadEnvironmentConfig trim URL_parses parseInt dropTrailingSlash env = Some cfg ->
    1 <= batchSize cfg
    /\ (batchSize cfg = BATCH_SIZE
        \/ exists text, LOGSENTINEL_BATCH_SIZE env = Some text
                        /\ parseInt text = Some (batchSize cfg))
    /\ debug cfg = match LOGSENTINEL_DEBUG env with
                   | Some text => String.eqb text "true"
                   | None => false
                   end
    /\ exists key address,
         LOGSENTINEL_API_KEY env = Some key
         /\ LOGSENTINEL_BASE_URL env = Some address
         /\ URL_parses address = true
         /\ apiKey cfg = trim key
         /\ baseUrl cfg = dropTrailingSlash (trim address).
Proof.
  intros trim URL_parses parseInt dropTrailingSlash env cfg H.
  unfold loadEnvironmentConfig in H.
  destruct (blank trim (LOGSENTINEL_API_KEY env)); [discriminate|].
  destruct (blank trim (LOGSENTINEL_BASE_URL env)); [discriminate|].
  destruct (LOGSENTINEL_API_KEY env) as [key|]; [|discriminate].
  destruct (LOGSENTINEL_BASE_URL env) as [address|]; [|discriminate].
  destruct (URL_parses address) eqn:Hu; [|discriminate].
  inversion H; subst cfg; clear H. cbn [batchSize debug apiKey baseUrl].
  assert (Hsize :
    forall parsed : option Z,
      let size := match parsed with
                  | None => BATCH_SIZE
                  | Some n => if n <? 1 then BATCH_SIZE else n
                  end in
      1 <= size /\ (size = BATCH_SIZE \/ parsed = Some size)).
  { intros [n|]; cbv zeta.
    - destruct (Z.ltb_spec n 1); [unfold BATCH_SIZE; lia|].
      split; [lia|]. right; reflexivity.
    - unfold BATCH_SIZE. split; [lia|]. left; reflexivity. }
  split; [|split; [|split]].
  - apply Hsize.
  - destruct (LOGSENTINEL_BATCH_SIZE env) as [text|].
    + destruct (String.eqb text "").
      * left. reflexivity.
      * destruct (Hsize (parseInt text)) as [_ [Hd|Hp]]; [left; exact Hd|].
        right. exists text. split; [reflexivity|exact Hp].
    + left. reflexivity.
  - reflexivity.
  - exists key, address. repeat split; auto.
Qed.

Lemma loadEnvironmentConfig_valid_witness :
  1 <= 5
  /\ (5 = BATCH_SIZE
      \/ exists text, Some "0" = Some text /\ Some 0 = Some 5)
  /\ false = String.eqb "TRUE" "true"
  /\ exists key address,
       Some "key" = Some key
       /\ Some "https://collector.example/" = Some address
       /\ true = true
       /\ "key" = key
       /\ "https://collector.example/" = address.
Proof.
  apply (loadEnvironmentConfig_valid (fun s => s) (fun _ => true) (fun _ => Some 0)
           (fun s => s)
           {| LOGSENTINEL_API_KEY := Some "key";
              LOGSENTINEL_BASE_URL := Some "https://collector.example/";
              LOGSENTINEL_DEBUG := Some "TRUE";
              LOGSENTINEL_BATCH_SIZE := Some "0" |}
           {| apiKey := "key"; baseUrl := "https://collector.example/";
              debug := false; batchSize := 5 |}).
  reflexivity.
Defined.

(** X20. [isEnvironmentConfigured] is the weaker test: whenever
    [loadEnvironmentConfig] returns a configuration,
    [isEnvironmentConfigured] answers true. *)
Theorem loaded_implies_configured :
  forall (trim : string -> string) (URL_parses : string -> bool)
         (parseInt : string -> option Z) (dropTrailingSlash : string -> string)
         (env : ProcessEnv) (cfg : EnvConfig),
    loadEnvironmentConfig trim URL_parses parseInt dropTrailingSlash env = Some cfg ->
    isEnvironmentConfigured env = true.
Proof.
  intros trim URL_parses parseInt dropTrailingSlash env cfg H.
  unfold loadEnvironmentConfig in H. unfold isEnvironmentConfigured, truthy.
  destruct (blank trim (LOGSENTINEL_API_KEY env)) eqn:Hk; [discriminate|].
  destruct (blank trim (LOGSENTINEL_BASE_URL env)) eqn:Hu; [discriminate|].
  destruct (LOGSENTINEL_API_KEY env) as [key|]; [|discriminate].
  destruct (LOGSENTINEL_BASE_URL env) as [address|]; [|discriminate].
  simpl in Hk, Hu. apply orb_false_iff in Hk, Hu.
  destruct Hk as [-> _]. destruct Hu as [-> _]. reflexivity.
Qed.

Lemma loaded_implies_configured_witness :
  isEnvironmentConfigured
    {| LOGSENTINEL_API_KEY := Some "key";
       LOGSENTINEL_BASE_URL := Some "https://collector.example/";
       LOGSENTINEL_DEBUG := None;
       LOGSENTINEL_BATCH_SIZE := None |} = true.
Proof.
  apply (loaded_implies_configured (fun s => s) (fun _ => true) (fun _ => None)
           (fun s => s) _
           {| apiKey := "key"; baseUrl := "https://collector.example/";
              debug := false; batchSize := 5 |}).
  reflexivity.
Defined.

(** X21. What a successful [install] sets up: with a configuration and a
    host application that does not throw, a new SDK ends up active, with an
    empty queue, its signal handlers registered and its flusher running on
    a timer of [FLUSH_INTERVAL_MS]; the threshold and the debug flag are
    those of the options when the options give them, whatever their value,
    and those of the environment otherwise. *)
Theorem install_success :
  forall (cfg : EnvConfig) (opts : option LogSentinelOptions) (app : INestApplication),
    use app = None ->
    useGlobalInterceptors app = None ->
    let s := LogSentinelSDK.install (Some cfg) app (LogSentinelSDK.new opts) in
    let size := match opts with
                | Some o => match opt_batchSize o with
                            | Some n => n
                            | None => batchSize cfg
                            end
                | None => batchSize cfg
                end in
    let dbg := match opts with
               | Some o => match opt_debug o with
                           | Some b => b
                           | None => debug cfg
                           end
               | None => debug cfg
               end in
    LogSentinelSDK.isActive s = true
    /\ LogSentinelSDK.getQueueSize s = 0
    /\ LogSentinelSDK.hooksRegistered s = true
    /\ LogSentinelSDK.interceptorInstalled s = true
    /\ LogSentinelSDK.queue s = Some BatchQueue.new
    /\ LogSentinelSDK.logger s = Some (InternalLogger.mk dbg)
    /\ LogSentinelSDK.flusher s
       = Some (BatchFlusher.mk
                 (HttpClient.mk
                    {| apiKey := apiKey cfg; baseUrl := baseUrl cfg;
                       debug := dbg; batchSize := size |}
                    (InternalLogger.mk dbg) dbg)
                 (InternalLogger.mk dbg) size
                 (Some FLUSH_INTERVAL_MS) true false).
Proof.
  intros cfg opts app Hu Hg s size dbg. subst s size dbg.
  unfold LogSentinelSDK.install. rewrite Hu, Hg.
  destruct opts as [[[b|] [n|]]|]; repeat split; reflexivity.
Qed.

Lemma install_success_witness :
  let s := LogSentinelSDK.install (Some (sampleConfig false)) cooperativeApp
             (LogSentinelSDK.new (Some {| opt_debug := None; opt_batchSize := Some 0 |})) in
  LogSentinelSDK.isActive s = true
  /\ LogSentinelSDK.getQueueSize s = 0
  /\ LogSentinelSDK.hooksRegistered s = true
  /\ LogSentinelSDK.interceptorInstalled s = true
  /\ LogSentinelSDK.queue s = Some BatchQueue.new
  /\ LogSentinelSDK.logger s = Some (InternalLogger.mk false)
  /\ LogSentinelSDK.flusher s
     = Some (BatchFlusher.mk
               (HttpClient.mk
                  {| apiKey := "key"; baseUrl := "https://collector.example";
                     debug := false; batchSize := 0 |}
                  (InternalLogger.mk false) false)
               (InternalLogger.mk false) 0
               (Some FLUSH_INTERVAL_MS) true false).
Proof.
  apply (install_success (sampleConfig false)
           (Some {| opt_debug := None; opt_batchSize := Some 0 |}) cooperativeApp);
    reflexivity.
Defined.

(** X22. A stopped flusher sends nothing on its own: after [stop], whatever
    entries are enqueued, whatever ticks of a timer already cancelled
    arrive and whatever pending call settles, no call of [sendBatch] is
    made until the flusher is started again or a flush is asked for. *)
Theorem stopped_flusher_sends_nothing :
  forall (ts : list BatchFlusher.trigger) (h : BatchFlusher.heap),
    Forall (fun t => match t with
                     | BatchFlusher.ManualFlush | BatchFlusher.Start => False
                     | _ => True
                     end) ts ->
    BatchFlusher.sendBatchCalls (BatchFlusher.run ts (BatchFlusher.stop h))
      = BatchFlusher.sendBatchCalls h.
Proof.
  intros ts h Hts.
  assert (Hgen : forall ts g,
             Forall (fun t => match t with
                              | BatchFlusher.ManualFlush | BatchFlusher.Start => False
                              | _ => True
                              end) ts ->
             BatchFlusher.intervalHandle (BatchFlusher.self g) = None ->
             BatchFlusher.sendBatchCalls (BatchFlusher.run ts g)
               = BatchFlusher.sendBatchCalls g).
  { clear. induction ts as [|t ts IH]; intros g Hts Hoff; [reflexivity|].
    inversion Hts as [|? ? Ht Hrest]; subst.
    cbn [BatchFlusher.run fold_left]. fold (BatchFlusher.run ts (BatchFlusher.react g t)).
    destruct t; try contradiction; simpl BatchFlusher.react.
    - rewrite IH; [reflexivity|assumption|exact Hoff].
    - rewrite Hoff. apply IH; assumption.
    - destruct (settle_keeps result g) as (_ & Ht' & _).
      rewrite IH; [|assumption|congruence].
      apply settle_keeps_records.
    - rewrite IH; [reflexivity|assumption|reflexivity].
    - rewrite IH; [reflexivity|assumption|exact Hoff]. }
  rewrite Hgen; [reflexivity|exact Hts|reflexivity].
Qed.

Lemma stopped_flusher_sends_nothing_witness :
  BatchFlusher.sendBatchCalls
    (BatchFlusher.run
       (map BatchFlusher.Enqueue fiveEntries ++ [BatchFlusher.Tick; BatchFlusher.Tick])
       (BatchFlusher.stop idleFlusher))
  = BatchFlusher.sendBatchCalls idleFlusher.
Proof.
  apply (stopped_flusher_sends_nothing
           (map BatchFlusher.Enqueue fiveEntries ++ [BatchFlusher.Tick; BatchFlusher.Tick])
           idleFlusher).
  repeat constructor.
Defined.

(** X23. The race of [shutdown] does not cancel its loser: on an enabled
    SDK with entries queued and no flush under way, if the delivery of the
    final batch is over before the grace period, [shutdown] returns when the
    delivery is over, with the flush finished and its guard free; otherwise
    it returns when the grace period is over and leaves the flush under
    way, its guard taken and its call of [sendBatch] pending. *)
Theorem shutdown_race_outcome :
  forall (net : nat -> LogEntry -> Reply) (s : LogSentinelSDK.t) (w : World)
         (q : BatchQueue.t) (f : BatchFlusher.t),
    LogSentinelSDK.isEnabled s = true ->
    LogSentinelSDK.queue s = Some q ->
    LogSentinelSDK.flusher s = Some f ->
    BatchFlusher.flushInProgress f = false ->
    LogSentinelSDK.inFlight s = [] ->
    BatchQueue.queue q <> [] ->
    let delivery :=
      HttpClient.sendBatch net (BatchFlusher.httpClient f) (BatchQueue.queue q) w in
    let took := clock (snd delivery) - clock w in
    let r := LogSentinelSDK.shutdown net s w in
    exists f',
      LogSentinelSDK.flusher (LogSentinelSDK.after r) = Some f'
      /\ if took <? SHUTDOWN_GRACE_PERIOD_MS
         then LogSentinelSDK.waited r = took
              /\ LogSentinelSDK.inFlight (LogSentinelSDK.after r) = []
              /\ BatchFlusher.flushInProgress f' = false
         else LogSentinelSDK.waited r = SHUTDOWN_GRACE_PERIOD_MS
              /\ LogSentinelSDK.inFlight (LogSentinelSDK.after r) = [BatchQueue.queue q]
              /\ BatchFlusher.flushInProgress f' = true.
Proof.
  intros net s w q f He Hq Hf Hidle Hnone Hne delivery took r.
  subst r took delivery.
  unfold LogSentinelSDK.shutdown. rewrite He, Hq, Hf. cbv zeta.
  set (h2 := BatchFlusher.stop _).
  assert (Hfree : BatchFlusher.flushInProgress (BatchFlusher.self h2) = false)
    by exact Hidle.
  unfold BatchFlusher.manualFlush.
  pose proof (flush_when_free h2 Hfree) as [Hcase _].
  assert (Hclient : BatchFlusher.httpClient (BatchFlusher.self (fst (BatchFlusher.flush h2)))
                    = BatchFlusher.httpClient f).
  { unfold BatchFlusher.flush. rewrite Hfree.
    unfold BatchQueue.getAndClear. cbv beta iota zeta.
    destruct (Z.of_nat (List.length _) =? 0); reflexivity. }
  destruct (BatchFlusher.flush h2) as [h3 awaited]. simpl fst in *; simpl snd in *.
  change (BatchQueue.queue (BatchFlusher.queue h2)) with (BatchQueue.queue q) in Hcase.
  change (BatchFlusher.inFlight h2) with (LogSentinelSDK.inFlight s) in Hcase.
  rewrite Hnone in Hcase.
  destruct (BatchQueue.queue q) as [|e rest] eqn:Hitems; [congruence|].
  destruct Hcase as (-> & Hflag & _ & Hfl). simpl in Hfl.
  unfold LogSentinelSDK.race. rewrite Hclient.
  destruct (sendBatch_settles net (BatchFlusher.httpClient f) (e :: rest) w)
    as (result & Hres).
  destruct (HttpClient.sendBatch net (BatchFlusher.httpClient f) (e :: rest) w)
    as [o w'].
  simpl in Hres. rewrite Hres. cbn [snd].
  destruct (clock w' - clock w <? SHUTDOWN_GRACE_PERIOD_MS).
  - cbn [LogSentinelSDK.waited LogSentinelSDK.after].
    unfold BatchFlusher.settle. rewrite Hfl.
    exists (BatchFlusher.self
              (BatchFlusher.flush_resume (e :: rest) result
                 {| BatchFlusher.self := BatchFlusher.self h3;
                    BatchFlusher.queue := BatchFlusher.queue h3;
                    BatchFlusher.sendBatchCalls := BatchFlusher.sendBatchCalls h3;
                    BatchFlusher.inFlight := [];
                    BatchFlusher.console := BatchFlusher.console h3 |})).
    split; [|split; [reflexivity|split; [|reflexivity]]].
    + match goal with
      | |- context [if ?c then _ else _] => destruct c
      end; unfold LogSentinelSDK.log;
        destruct (LogSentinelSDK.logger _); reflexivity.
    + match goal with
      | |- context [if ?c then _ else _] => destruct c
      end; unfold LogSentinelSDK.log;
        destruct (LogSentinelSDK.logger _);
        destruct result as [n|x]; simpl;
        try destruct (n =? _); reflexivity.
  - cbn [LogSentinelSDK.waited LogSentinelSDK.after].
    exists (BatchFlusher.self h3).
    split; [|split; [reflexivity|split; [|exact Hflag]]].
    + match goal with
      | |- context [if ?c then _ else _] => destruct c
      end; unfold LogSentinelSDK.log;
        destruct (LogSentinelSDK.logger _); reflexivity.
    + match goal with
      | |- context [if ?c then _ else _] => destruct c
      end; unfold LogSentinelSDK.log;
        destruct (LogSentinelSDK.logger _); simpl; exact Hfl.
Qed.

Lemma shutdown_race_outcome_witness :
  let r := LogSentinelSDK.shutdown (always 200 200) (sdkHoldingTwo false) world0 in
  exists f',
    LogSentinelSDK.flusher (LogSentinelSDK.after r) = Some f'
    /\ LogSentinelSDK.waited r = 400
    /\ LogSentinelSDK.inFlight (LogSentinelSDK.after r) = []
    /\ BatchFlusher.flushInProgress f' = false.
Proof.
  apply (shutdown_race_outcome (always 200 200) (sdkHoldingTwo false) world0
           (BatchQueue.mk [sample "/1"; sample "/2"] false)
           (BatchFlusher.mk (sampleClient false) (InternalLogger.mk false) 5
                            (Some FLUSH_INTERVAL_MS) true false));
    try reflexivity.
  discriminate.
Defined.

(** X24. The worst case is reached: on an entry that serialises, against a
    remote end that never answers, [sendLog] makes its four requests, each
    cut by the abort timer, and returns false after exactly 46000 ms. *)
Theorem sendLog_unanswered :
  forall (net : nat -> LogEntry -> Reply) (self : HttpClient.t)
         (e : LogEntry) (w : World),
    entry_stringifies e = true ->
    (forall n, latency (net n e) = None) ->
    exists w',
      HttpClient.sendLog net self e w = (Returned false, w')
      /\ fetches w' = (fetches w + 4)%nat
      /\ clock w' = clock w + 46000.
Proof.
  intros net self e w Hs Hnever.
  assert (Ht : forall n, transient (net n e) = true).
  { intros n. unfold transient, answer, in_time. now rewrite Hnever. }
  assert (Hd : forall n, duration (net n e) = HTTP_TIMEOUT_MS).
  { intros n. unfold duration. now rewrite Hnever. }
  unfold HttpClient.sendLog. unfold bind at 1.
  destruct (sendLog_preamble self e w (or_intror Hs))
    as (w0 & E0 & F0 & K0 & _ & _).
  rewrite E0. change (Z.to_nat (MAX_RETRIES + 1)) with 4%nat.
  set (endpoint := String.append _ _).
  destruct (retry_loop_transient net 3 self endpoint e 0 w0 Hs)
    as (w1 & E1 & F1 & K1 & _); [unfold MAX_RETRIES; lia|apply Ht|].
  destruct (retry_loop_transient net 2 self endpoint e 1 w1 Hs)
    as (w2 & E2 & F2 & K2 & _); [unfold MAX_RETRIES; lia|apply Ht|].
  destruct (retry_loop_transient net 1 self endpoint e 2 w2 Hs)
    as (w3 & E3 & F3 & K3 & _); [unfold MAX_RETRIES; lia|apply Ht|].
  destruct (retry_loop_exhausted net 0 self endpoint e w3 Hs (Ht _))
    as (w' & E & F & K & _).
  rewrite E1. change (0 + 1) with 1. rewrite E2. change (1 + 1) with 2.
  rewrite E3. change (2 + 1) with MAX_RETRIES. rewrite E.
  exists w'. split; [reflexivity|]. split; [lia|].
  rewrite K, K3, K2, K1, K0, !Hd.
  unfold HTTP_TIMEOUT_MS, RETRY_DELAY_MS. lia.
Qed.

Lemma sendLog_unanswered_witness :
  exists w',
    HttpClient.sendLog silent (sampleClient true) (sample "/a") world0
      = (Returned false, w')
    /\ fetches w' = 4%nat
    /\ clock w' = 46000.
Proof.
  apply (sendLog_unanswered silent (sampleClient true) (sample "/a") world0).
  - reflexivity.
  - intros n. reflexivity.
Defined.

(** C9. Batch delivery order and count fails in debug mode: on a batch
    that holds an entry JSON cannot carry, [sendBatch] of a client in debug
    mode throws the [TypeError] of [JSON.stringify] before its loop,
    whatever the remote end: no entry of the batch, the first one that
    serialises included, is handed to [sendLog], no request is made and no
    count is returned.  The same batch outside debug mode is gone through
    in order and counted. *)
Theorem sendBatch_debug_hands_over_nothing :
  forall (net : nat -> LogEntry -> Reply) (w : World),
    HttpClient.sendBatch net (sampleClient true) [sample "/1"; unserializable] w
      = (Threw StringifyError, w)
    /\ exists w',
         HttpClient.sendBatch (always 200 20) (sampleClient false)
           [sample "/1"; unserializable] world0 = (Returned 1, w')
         /\ fetched (trace w') = [sample "/1"].
Proof.
  intros net w. split; [reflexivity|].
  eexists. split; reflexivity.
Qed.
